(** * The waitlist widget: count cache and submission flow

    A shallow embedding of
    [apps/web/app/(waitlist)/_components/waitlist.tsx]:
    [getWaitlistCount], [joinWaitlist], the [queryFn] of [useWaitlistCount]
    together with its [onSuccess] / [onError] callbacks and the value the
    hook returns, and the [useEffect] of [WaitlistForm].

    The program is JavaScript, so the embedding carries the part of the
    language the code leans on: dynamically typed values, the coercions
    behind [-], [+], [>], [||], [??] and [?.], exceptions, [JSON.parse] and
    [JSON.stringify], [localStorage], [Date.now()] and [fetch].

    Conventions of the model.
    - Numbers are exact: the integers, the decimal fractions [m / 10^k], the
      two infinities and [NaN].  Every JSON numeral has its exact value, sums,
      differences and comparisons are computed exactly, and integers are
      printed with all their digits.  The doubles of the code do the same for
      every integer of magnitude up to 2^53 - 1 ([MAX_SAFE_INTEGER]) and for
      every timestamp a clock gives; beyond that they round, and print
      integers from 10^21 on with an exponent.
    - Strings are byte strings (UTF-8); a [\uXXXX] escape is decoded to the
      UTF-8 bytes of that code unit.
    - Objects keep their members in textual order.
    - The text an engine puts in the [TypeError] and [SyntaxError] it throws
      itself is engine specific and is kept abstract ([EngineText]). *)

From Stdlib Require Import ZArith Lia List Ascii String.
From Stdlib Require Import Decimal DecimalFacts DecimalString DecimalN DecimalZ.
From stdpp Require Import base option list gmap strings.

Local Open Scope string_scope.
Local Open Scope Z_scope.
Local Open Scope list_scope.

(** ** JavaScript values *)

(** [Dec m k] is [m / 10^k] for an [m] that is no multiple of ten, so that
    every number has one representation. *)
Inductive JsNum :=
  | NaN
  | Int (z : Z)
  | Dec (m : Z) (k : positive)
  | Inf (negative : bool).

#[warnings="-register-all"]
Inductive JsVal :=
  | JUndefined
  | JNull
  | JBool (b : bool)
  | JNum (n : JsNum)
  | JStr (s : string)
  | JArr (items : list JsVal)
  | JObj (members : list (string * JsVal)).

(** A thrown value.  [Error_ m] is [new Error(m)] of the source; the other
    two are raised by the engine; [NetworkFailure m] is the rejection of
    [fetch], a [TypeError] whose text [m] the browser chooses. *)
Inductive JsError :=
  | Error_ (message : string)
  | TypeError
  | SyntaxError
  | NetworkFailure (message : string).

Inductive Text :=
  | Literal (s : string)
  | EngineText (e : JsError).

(** [error.message] *)
Definition message_of (e : JsError) : Text :=
  match e with
  | Error_ m => Literal m
  | NetworkFailure m => Literal m
  | TypeError => EngineText TypeError
  | SyntaxError => EngineText SyntaxError
  end.

Inductive Outcome (A : Type) :=
  | Return (a : A)
  | Throw (e : JsError).
Arguments Return {A} a.
Arguments Throw {A} e.

(** ** Numbers and their decimal spelling *)

Definition Z_to_string (z : Z) : string :=
  NilZero.string_of_int (Z.to_int z).

Definition is_digit (c : ascii) : bool :=
  let n := nat_of_ascii c in (48 <=? n)%nat && (n <=? 57)%nat.

Fixpoint all_digits (s : string) : bool :=
  match s with
  | EmptyString => true
  | String c r => is_digit c && all_digits r
  end.

(** [Number.MAX_SAFE_INTEGER]: up to here the doubles of the code are the
    integers, and [n + 1] is computed exactly. *)
Definition MAX_SAFE_INTEGER : Z := 2 ^ 53 - 1.

(** The leading digits of a text, and what follows them. *)
Fixpoint span_digits (s : string) : string * string :=
  match s with
  | String c r =>
      if is_digit c then let p := span_digits r in (String c p.1, p.2)
      else (EmptyString, s)
  | EmptyString => (EmptyString, EmptyString)
  end.

(** The value of a run of digits (0 for the empty run). *)
Definition digits_Z (s : string) : Z :=
  match NilEmpty.uint_of_string s with
  | Some d => Z.of_N (N.of_uint d)
  | None => 0
  end.

(** [m / 10^k], in its one representation. *)
Fixpoint strip_zeros (k : nat) (m : Z) : JsNum :=
  match k with
  | O => Int m
  | S k' =>
      if m mod 10 =? 0 then strip_zeros k' (m / 10)
      else Dec m (Pos.of_succ_nat k')
  end.

(** [m * 10^e] *)
Definition mk_num (m e : Z) : JsNum :=
  if 0 <=? e then Int (m * 10 ^ e) else strip_zeros (Z.to_nat (- e)) m.

(** An exponent part up to the end of the text: nothing, or [e] or [E], an
    optional sign and at least one digit. *)
Definition exponent (s : string) : option Z :=
  match s with
  | EmptyString => Some 0
  | String c r =>
      if Ascii.eqb c "e" || Ascii.eqb c "E" then
        let p := match r with
                 | String "-" t => (true, t)
                 | String "+" t => (false, t)
                 | _ => (false, r)
                 end in
        match p.2 with
        | EmptyString => None
        | _ =>
            if all_digits p.2
            then Some (if p.1 then - digits_Z p.2 else digits_Z p.2)
            else None
        end
      else None
  end.

(** A fraction part, if any, and the exponent part: the digits after the
    point and the exponent.  With [strict], a point must be followed by a
    digit. *)
Definition fraction (strict : bool) (s : string) : option (string * Z) :=
  match s with
  | String "." r =>
      let f := span_digits r in
      match f.1, strict with
      | EmptyString, true => None
      | _, _ =>
          match exponent f.2 with
          | Some e => Some (f.1, e)
          | None => None
          end
      end
  | _ =>
      match exponent s with
      | Some e => Some (EmptyString, e)
      | None => None
      end
  end.

(** Value of a JSON numeral: an optional minus sign, an integer part
    without a leading zero, an optional fraction, an optional exponent. *)
Definition numeral_value (s : string) : option JsNum :=
  let p := match s with
           | String "-" r => (true, r)
           | _ => (false, s)
           end in
  let ip := span_digits p.2 in
  match NilZero.uint_of_string ip.1 with
  | Some d =>
      if uint_beq (unorm d) d then
        match ip.2 with
        | EmptyString =>
            Some (Int (if p.1 then - Z.of_N (N.of_uint d) else Z.of_N (N.of_uint d)))
        | _ =>
            match fraction true ip.2 with
            | Some (f, e) =>
                let m := digits_Z (ip.1 +:+ f) in
                Some (mk_num (if p.1 then - m else m)
                             (e - Z.of_nat (String.length f)))
            | None => None
            end
        end
      else None
  | None => None
  end.

(** A number that is neither [NaN] nor infinite, as mantissa and number of
    decimals. *)
Definition scaled (n : JsNum) : option (Z * Z) :=
  match n with
  | Int z => Some (z, 0)
  | Dec m k => Some (m, Z.pos k)
  | _ => None
  end.

Definition num_neg (a : JsNum) : JsNum :=
  match a with
  | NaN => NaN
  | Int z => Int (- z)
  | Dec m k => Dec (- m) k
  | Inf s => Inf (negb s)
  end.

Definition num_add (a b : JsNum) : JsNum :=
  match a, b with
  | Int x, Int y => Int (x + y)
  | NaN, _ | _, NaN => NaN
  | Inf s, Inf t => if Bool.eqb s t then Inf s else NaN
  | Inf s, _ | _, Inf s => Inf s
  | _, _ =>
      match scaled a, scaled b with
      | Some (m1, k1), Some (m2, k2) =>
          let k := Z.max k1 k2 in
          mk_num (m1 * 10 ^ (k - k1) + m2 * 10 ^ (k - k2)) (- k)
      | _, _ => NaN
      end
  end.

Definition num_sub (a b : JsNum) : JsNum :=
  match a, b with
  | Int x, Int y => Int (x - y)
  | _, _ => num_add a (num_neg b)
  end.

(** [a > b]: false as soon as one side is [NaN]. *)
Definition num_gt (a b : JsNum) : bool :=
  match a, b with
  | Int x, Int y => y <? x
  | NaN, _ | _, NaN => false
  | Inf s, Inf t => negb s && t
  | Inf s, _ => negb s
  | _, Inf t => t
  | _, _ =>
      match scaled a, scaled b with
      | Some (m1, k1), Some (m2, k2) =>
          let k := Z.max k1 k2 in
          m2 * 10 ^ (k - k2) <? m1 * 10 ^ (k - k1)
      | _, _ => false
      end
  end.

Fixpoint zeros (n : nat) : string :=
  match n with
  | O => EmptyString
  | S k => String "0" (zeros k)
  end.

(** [Number::toString] for a decimal fraction: with [n] the place of the
    point among the digits, plain notation while [-6 < n <= 21], exponent
    notation otherwise. *)
Definition Dec_to_string (m : Z) (k : positive) : string :=
  let digits := Z_to_string (Z.abs m) in
  let len := String.length digits in
  let n := Z.of_nat len - Z.pos k in
  (if m <? 0 then "-" else EmptyString) +:+
  (if (0 <? n) && (n <=? 21) then
     substring 0 (Z.to_nat n) digits +:+ "." +:+
     substring (Z.to_nat n) (len - Z.to_nat n) digits
   else if (-6 <? n) && (n <=? 0) then
     "0." +:+ zeros (Z.to_nat (- n)) +:+ digits
   else
     substring 0 1 digits +:+
     (if (len =? 1)%nat then EmptyString
      else "." +:+ substring 1 (len - 1) digits) +:+
     "e" +:+ (if n - 1 <? 0 then "-" else "+") +:+ Z_to_string (Z.abs (n - 1))).

(** [Number::toString] *)
Definition num_to_string (n : JsNum) : string :=
  match n with
  | NaN => "NaN"
  | Int z => Z_to_string z
  | Dec m k => Dec_to_string m k
  | Inf false => "Infinity"
  | Inf true => "-Infinity"
  end.

(** ** Coercions *)

Fixpoint has_key (k : string) (m : list (string * JsVal)) : bool :=
  match m with
  | [] => false
  | (k', _) :: r => if String.eqb k k' then true else has_key k r
  end.

(** Last binding wins, as when [JSON.parse] meets a repeated key. *)
Fixpoint lookup_member (k : string) (m : list (string * JsVal)) : option JsVal :=
  match m with
  | [] => None
  | (k', v) :: r =>
      match lookup_member k r with
      | Some w => Some w
      | None => if String.eqb k k' then Some v else None
      end
  end.

(** [ToString].  The values here are built by [JSON.parse] or by object
    literals, so an object has no callable member: with an own [toString]
    member the conversion finds nothing to call and throws (here [None]),
    without one it reaches [Object.prototype.toString].  An array is joined
    with commas, [null] and [undefined] items giving the empty string. *)
Fixpoint ToString (v : JsVal) : option string :=
  match v with
  | JUndefined => Some "undefined"
  | JNull => Some "null"
  | JBool true => Some "true"
  | JBool false => Some "false"
  | JNum NaN => Some "NaN"
  | JNum (Int z) => Some (Z_to_string z)
  | JNum n => Some (num_to_string n)
  | JStr s => Some s
  | JArr items =>
      (fix join (l : list JsVal) : option string :=
         match l with
         | [] => Some EmptyString
         | x :: r =>
             let item := match x with
                         | JUndefined | JNull => Some EmptyString
                         | _ => ToString x
                         end in
             match item, r with
             | None, _ => None
             | Some s, [] => Some s
             | Some s, _ :: _ =>
                 match join r with
                 | Some t => Some (s +:+ "," +:+ t)
                 | None => None
                 end
             end
         end) items
  | JObj m => if has_key "toString" m then None else Some "[object Object]"
  end.

Fixpoint rev_app (s acc : string) : string :=
  match s with
  | EmptyString => acc
  | String c r => rev_app r (String c acc)
  end.

Definition rev_string (s : string) : string := rev_app s EmptyString.

(** One white space or line terminator of the language at the head of the
    text, in UTF-8: what is left after it. *)
Definition skip_space (s : string) : option string :=
  match s with
  | String c r =>
      let n := nat_of_ascii c in
      if (n =? 32)%nat || ((9 <=? n)%nat && (n <=? 13)%nat) then Some r
      else
        match r with
        | String d r' =>
            let a := nat_of_ascii d in
            if (n =? 194)%nat && (a =? 160)%nat then Some r'
            else
              match r' with
              | String e r2 =>
                  let b := nat_of_ascii e in
                  if ((n =? 225)%nat && (a =? 154)%nat && (b =? 128)%nat)
                     || ((n =? 226)%nat && (a =? 128)%nat &&
                         (((128 <=? b)%nat && (b <=? 138)%nat)
                          || (b =? 168)%nat || (b =? 169)%nat || (b =? 175)%nat))
                     || ((n =? 226)%nat && (a =? 129)%nat && (b =? 159)%nat)
                     || ((n =? 227)%nat && (a =? 128)%nat && (b =? 128)%nat)
                     || ((n =? 239)%nat && (a =? 187)%nat && (b =? 191)%nat)
                  then Some r2 else None
              | EmptyString => None
              end
        | EmptyString => None
        end
  | EmptyString => None
  end.

Definition is_blank (s : string) : bool :=
  match skip_space s with
  | Some EmptyString => true
  | _ => false
  end.

(** The same at the end of a text that is given reversed. *)
Definition skip_space_end (s : string) : option string :=
  match s with
  | String a r1 =>
      if is_blank (String a EmptyString) then Some r1
      else
        match r1 with
        | String b r2 =>
            if is_blank (String b (String a EmptyString)) then Some r2
            else
              match r2 with
              | String c r3 =>
                  if is_blank (String c (String b (String a EmptyString)))
                  then Some r3 else None
              | EmptyString => None
              end
        | EmptyString => None
        end
  | EmptyString => None
  end.

Fixpoint strip (skip : string -> option string) (fuel : nat) (s : string) : string :=
  match fuel with
  | O => s
  | S f =>
      match skip s with
      | Some r => strip skip f r
      | None => s
      end
  end.

Definition trim (s : string) : string :=
  let l := strip skip_space (String.length s) s in
  rev_string (strip skip_space_end (String.length l) (rev_string l)).

Definition hex_value (c : ascii) : option nat :=
  let n := nat_of_ascii c in
  if (48 <=? n)%nat && (n <=? 57)%nat then Some (n - 48)%nat
  else if (65 <=? n)%nat && (n <=? 70)%nat then Some (n - 55)%nat
  else if (97 <=? n)%nat && (n <=? 102)%nat then Some (n - 87)%nat
  else None.

Fixpoint radix_digits (radix : nat) (acc : Z) (s : string) : option Z :=
  match s with
  | EmptyString => Some acc
  | String c r =>
      match hex_value c with
      | Some d =>
          if (d <? radix)%nat
          then radix_digits radix (acc * Z.of_nat radix + Z.of_nat d) r
          else None
      | None => None
      end
  end.

(** The digits after [0x], [0o] or [0b]. *)
Definition radix_literal (radix : nat) (s : string) : JsNum :=
  match s with
  | EmptyString => NaN
  | _ =>
      match radix_digits radix 0 s with
      | Some z => Int z
      | None => NaN
      end
  end.

(** An unsigned decimal literal as [Number()] reads it: [Infinity], or
    digits with an optional fraction and exponent, where either side of the
    point may be empty but not both. *)
Definition decimal_literal (s : string) : JsNum :=
  if String.eqb s "Infinity" then Inf false
  else
    let ip := span_digits s in
    match fraction false ip.2 with
    | Some (f, e) =>
        match ip.1 +:+ f with
        | EmptyString => NaN
        | ds => mk_num (digits_Z ds) (e - Z.of_nat (String.length f))
        end
    | None => NaN
    end.

(** [StringToNumber]: blank gives 0; otherwise a hexadecimal, octal or
    binary integer literal, or a signed decimal literal, gives its value,
    and anything else [NaN]. *)
Definition StringToNumber (s : string) : JsNum :=
  match trim s with
  | EmptyString => Int 0
  | String "-" r => num_neg (decimal_literal r)
  | String "+" r => decimal_literal r
  | String "0" (String c r) as t =>
      if Ascii.eqb c "x" || Ascii.eqb c "X" then radix_literal 16 r
      else if Ascii.eqb c "o" || Ascii.eqb c "O" then radix_literal 8 r
      else if Ascii.eqb c "b" || Ascii.eqb c "B" then radix_literal 2 r
      else decimal_literal t
  | t => decimal_literal t
  end.

(** [ToNumber]; [None] is the [TypeError] of a failed [ToPrimitive]. *)
Definition ToNumber (v : JsVal) : option JsNum :=
  match v with
  | JUndefined => Some NaN
  | JNull => Some (Int 0)
  | JBool true => Some (Int 1)
  | JBool false => Some (Int 0)
  | JNum n => Some n
  | JStr s => Some (StringToNumber s)
  | JArr _ | JObj _ =>
      match ToString v with
      | Some s => Some (StringToNumber s)
      | None => None
      end
  end.

(** Truthiness ([ToBoolean]). *)
Definition ToBoolean (v : JsVal) : bool :=
  match v with
  | JUndefined | JNull | JBool false | JNum NaN | JNum (Int 0) | JNum (Dec 0 _)
  | JStr EmptyString => false
  | _ => true
  end.

(** [a - b] *)
Definition js_sub (a b : JsVal) : Outcome JsNum :=
  match ToNumber a, ToNumber b with
  | Some x, Some y => Return (num_sub x y)
  | _, _ => Throw TypeError
  end.

(** [a + b]: concatenation when either operand is, or converts to, a
    string; numeric addition otherwise. *)
Definition js_add (a b : JsVal) : Outcome JsVal :=
  let stringy v := match v with JStr _ | JArr _ | JObj _ => true | _ => false end in
  if stringy a || stringy b then
    match ToString a, ToString b with
    | Some s, Some t => Return (JStr (s +:+ t))
    | _, _ => Throw TypeError
    end
  else
    match ToNumber a, ToNumber b with
    | Some x, Some y => Return (JNum (num_add x y))
    | _, _ => Throw TypeError
    end.

(** [a ?? b] *)
Definition nullish (a b : JsVal) : JsVal :=
  match a with
  | JUndefined | JNull => b
  | _ => a
  end.

(** [a || b] *)
Definition js_or (a b : JsVal) : JsVal :=
  if ToBoolean a then a else b.

(** [v?.key], for the member names this program reads ([count],
    [timestamp], [error]): none of them is a built-in property, so only an
    object's own members can answer. *)
Definition GetOpt (v : JsVal) (key : string) : JsVal :=
  match v with
  | JObj m => default JUndefined (lookup_member key m)
  | _ => JUndefined
  end.

(** [v.key]: reading from [null] or [undefined] throws. *)
Definition Get (v : JsVal) (key : string) : Outcome JsVal :=
  match v with
  | JUndefined | JNull => Throw TypeError
  | _ => Return (GetOpt v key)
  end.

(** ** [JSON.stringify] *)

Definition dquote : ascii := ascii_of_nat 34.

Definition hex_digit (n : nat) : ascii :=
  ascii_of_nat (if (n <? 10)%nat then 48 + n else 87 + n)%nat.

Definition escape (c : ascii) : string :=
  match nat_of_ascii c with
  | 34%nat => String "\" (String dquote EmptyString)
  | 92%nat => "\\"
  | 8%nat => "\b"
  | 9%nat => "\t"
  | 10%nat => "\n"
  | 12%nat => "\f"
  | 13%nat => "\r"
  | n =>
      if (n <? 32)%nat
      then "\u00" +:+ String (hex_digit (n / 16)) (String (hex_digit (n mod 16)) EmptyString)
      else String c EmptyString
  end.

Fixpoint quote_body (s : string) : string :=
  match s with
  | EmptyString => EmptyString
  | String c r => escape c +:+ quote_body r
  end.

Definition quote (s : string) : string :=
  String dquote (quote_body s +:+ String dquote EmptyString).

(** The JSON text of a value; [None] where [JSON.stringify] yields
    [undefined].  An [undefined] member is left out of an object and printed
    as [null] in an array; [NaN] and the infinities are printed as [null]. *)
Fixpoint stringify (v : JsVal) : option string :=
  match v with
  | JUndefined => None
  | JNull => Some "null"
  | JBool true => Some "true"
  | JBool false => Some "false"
  | JNum NaN => Some "null"
  | JNum (Int z) => Some (Z_to_string z)
  | JNum (Dec m k) => Some (Dec_to_string m k)
  | JNum (Inf _) => Some "null"
  | JStr s => Some (quote s)
  | JArr items =>
      Some ("[" +:+
            (fix elems (l : list JsVal) : string :=
               match l with
               | [] => EmptyString
               | x :: r =>
                   default "null" (stringify x) +:+
                   match r with
                   | [] => EmptyString
                   | _ :: _ => "," +:+ elems r
                   end
               end) items +:+ "]")
  | JObj m =>
      Some ("{" +:+
            (fix members (first : bool) (l : list (string * JsVal)) : string :=
               match l with
               | [] => EmptyString
               | (k, x) :: r =>
                   match stringify x with
                   | None => members first r
                   | Some s =>
                       (if first then EmptyString else ",") +:+
                       quote k +:+ ":" +:+ s +:+ members false r
                   end
               end) true m +:+ "}")
  end.

(** [JSON.stringify(v)] used as a string, as [localStorage.setItem] does. *)
Definition JSON_stringify (v : JsVal) : string :=
  default "undefined" (stringify v).

(** ** [JSON.parse] *)

Inductive Token :=
  | TLBrace | TRBrace | TLBracket | TRBracket | TColon | TComma
  | TString (s : string)
  | TNumber (n : JsNum)
  | TTrue | TFalse | TNull.

(** The scanner reads one character at a time; text gathered so far is kept
    reversed. *)
Inductive LexState :=
  | LIdle
  | LNumber (seen : string)
  | LString (seen : string)
  | LEscape (seen : string)
  | LUnicode (seen : string) (more : nat) (code : nat)
  | LWord (rest : string) (t : Token).

(** UTF-8 bytes of a 16-bit code unit, last byte first. *)
Definition utf8_rev (n : nat) (seen : string) : string :=
  if (n <? 128)%nat then String (ascii_of_nat n) seen
  else if (n <? 2048)%nat then
    String (ascii_of_nat (128 + n mod 64))
      (String (ascii_of_nat (192 + n / 64)) seen)
  else
    String (ascii_of_nat (128 + n mod 64))
      (String (ascii_of_nat (128 + (n / 64) mod 64))
         (String (ascii_of_nat (224 + n / 4096)) seen)).

(** The characters a numeral is made of. *)
Definition is_numeral_char (c : ascii) : bool :=
  is_digit c ||
  match nat_of_ascii c with
  | 43%nat | 45%nat | 46%nat | 69%nat | 101%nat => true
  | _ => false
  end.

Definition idle_step (c : ascii) : option (LexState * list Token) :=
  match nat_of_ascii c with
  | 32%nat | 9%nat | 10%nat | 13%nat => Some (LIdle, [])
  | 123%nat => Some (LIdle, [TLBrace])
  | 125%nat => Some (LIdle, [TRBrace])
  | 91%nat => Some (LIdle, [TLBracket])
  | 93%nat => Some (LIdle, [TRBracket])
  | 58%nat => Some (LIdle, [TColon])
  | 44%nat => Some (LIdle, [TComma])
  | 34%nat => Some (LString EmptyString, [])
  | 116%nat => Some (LWord "rue" TTrue, [])
  | 102%nat => Some (LWord "alse" TFalse, [])
  | 110%nat => Some (LWord "ull" TNull, [])
  | 45%nat => Some (LNumber (String c EmptyString), [])
  | _ => if is_digit c then Some (LNumber (String c EmptyString), []) else None
  end.

Definition escape_step (seen : string) (c : ascii) : option LexState :=
  match nat_of_ascii c with
  | 34%nat | 92%nat | 47%nat => Some (LString (String c seen))
  | 98%nat => Some (LString (String (ascii_of_nat 8) seen))
  | 102%nat => Some (LString (String (ascii_of_nat 12) seen))
  | 110%nat => Some (LString (String (ascii_of_nat 10) seen))
  | 114%nat => Some (LString (String (ascii_of_nat 13) seen))
  | 116%nat => Some (LString (String (ascii_of_nat 9) seen))
  | 117%nat => Some (LUnicode seen 4 0)
  | _ => None
  end.

Definition lex_step (st : LexState) (c : ascii) : option (LexState * list Token) :=
  match st with
  | LIdle => idle_step c
  | LNumber seen =>
      if is_numeral_char c then Some (LNumber (String c seen), [])
      else
        match numeral_value (rev_string seen), idle_step c with
        | Some n, Some (st', out) => Some (st', TNumber n :: out)
        | _, _ => None
        end
  | LString seen =>
      match nat_of_ascii c with
      | 34%nat => Some (LIdle, [TString (rev_string seen)])
      | 92%nat => Some (LEscape seen, [])
      | n => if (n <? 32)%nat then None else Some (LString (String c seen), [])
      end
  | LEscape seen =>
      match escape_step seen c with
      | Some st' => Some (st', [])
      | None => None
      end
  | LUnicode seen more code =>
      match hex_value c, more with
      | Some h, 1%nat => Some (LString (utf8_rev (code * 16 + h) seen), [])
      | Some h, S k => Some (LUnicode seen k (code * 16 + h), [])
      | _, _ => None
      end
  | LWord rest t =>
      match rest with
      | String e EmptyString =>
          if Ascii.eqb c e then Some (LIdle, [t]) else None
      | String e rest' =>
          if Ascii.eqb c e then Some (LWord rest' t, []) else None
      | EmptyString => None
      end
  end.

Definition lex_end (st : LexState) : option (list Token) :=
  match st with
  | LIdle => Some []
  | LNumber seen =>
      match numeral_value (rev_string seen) with
      | Some n => Some [TNumber n]
      | None => None
      end
  | _ => None
  end.

Fixpoint lex (st : LexState) (s : string) : option (list Token) :=
  match s with
  | EmptyString => lex_end st
  | String c r =>
      match lex_step st c with
      | Some (st', out) =>
          match lex st' r with
          | Some rest => Some (out ++ rest)%list
          | None => None
          end
      | None => None
      end
  end.

(** The parser is a push-down machine over the tokens: the stack holds the
    arrays and objects that are still open. *)
Inductive Frame :=
  | FArr (done : list JsVal)
  | FObj (done : list (string * JsVal))
  | FMember (done : list (string * JsVal)) (key : string).

Inductive PState :=
  | PValue | PValueOrEnd | PKeyOrEnd | PKey | PColon | PAfter
  | PDone (v : JsVal).

(** A repeated key keeps its first position and takes the last value. *)
Fixpoint set_member (k : string) (v : JsVal) (m : list (string * JsVal))
  : list (string * JsVal) :=
  match m with
  | [] => [(k, v)]
  | (k', w) :: r =>
      if String.eqb k k' then (k', v) :: r else (k', w) :: set_member k v r
  end.

Definition complete (v : JsVal) (stack : list Frame) : option (PState * list Frame) :=
  match stack with
  | [] => Some (PDone v, [])
  | FArr d :: k => Some (PAfter, FArr (d ++ [v])%list :: k)
  | FMember d key :: k => Some (PAfter, FObj (set_member key v d) :: k)
  | FObj _ :: _ => None
  end.

Definition value_start (stack : list Frame) (t : Token) : option (PState * list Frame) :=
  match t with
  | TString s => complete (JStr s) stack
  | TNumber n => complete (JNum n) stack
  | TTrue => complete (JBool true) stack
  | TFalse => complete (JBool false) stack
  | TNull => complete JNull stack
  | TLBracket => Some (PValueOrEnd, FArr [] :: stack)
  | TLBrace => Some (PKeyOrEnd, FObj [] :: stack)
  | _ => None
  end.

Definition parse_step (st : PState) (stack : list Frame) (t : Token)
  : option (PState * list Frame) :=
  match st, t, stack with
  | PValue, _, _ => value_start stack t
  | PValueOrEnd, TRBracket, FArr d :: k => complete (JArr d) k
  | PValueOrEnd, _, _ => value_start stack t
  | (PKeyOrEnd | PAfter), TRBrace, FObj d :: k => complete (JObj d) k
  | (PKeyOrEnd | PKey), TString key, FObj d :: k => Some (PColon, FMember d key :: k)
  | PColon, TColon, _ => Some (PValue, stack)
  | PAfter, TComma, FArr _ :: _ => Some (PValue, stack)
  | PAfter, TComma, FObj _ :: _ => Some (PKey, stack)
  | PAfter, TRBracket, FArr d :: k => complete (JArr d) k
  | _, _, _ => None
  end.

Fixpoint parse_tokens (st : PState) (stack : list Frame) (ts : list Token)
  : option JsVal :=
  match ts with
  | [] => match st with PDone v => Some v | _ => None end
  | t :: r =>
      match parse_step st stack t with
      | Some (st', stack') => parse_tokens st' stack' r
      | None => None
      end
  end.

(** [JSON.parse(s)]; [None] is the [SyntaxError]. *)
Definition JSON_parse (s : string) : option JsVal :=
  match lex LIdle s with
  | Some ts => parse_tokens PValue [] ts
  | None => None
  end.

(** ** The page: browser state, React state, effects *)

Inductive Event :=
  | Fetched (method url : string) (body : option string)
  | ConsoleError (label : string) (e : JsError)
  | ToastSuccess (msg : string)
  | ToastError (msg : Text)
  | Confetti.

(** [localStorage], the clock behind [Date.now()] and what the page has done
    so far, next to the React state of the two components: [query.data] of
    the count query ([JUndefined] while there is none), [success] of
    [useWaitlistCount] and [localSuccess] of [WaitlistForm]. *)
Record State := mkState {
  localStorage : gmap string string;
  clock : Z;
  trace : list Event;
  query_data : JsVal;
  success : bool;
  localSuccess : bool
}.

(** What the network answers to one request, and how long it takes.  The
    [body] of a response is its text, as [res.text()] would give it;
    [res.json()] is [JSON.parse] of that text. *)
Inductive Reply :=
  | NetworkDown (reason : string)
  | Response (status : Z) (body : string).

Record Exchange := mkExchange {
  latency : N;
  reply : Reply
}.

(** [response.ok] *)
Definition ok (status : Z) : bool := (200 <=? status) && (status <=? 299).

(** Computations that read and write the page and may throw. *)
Definition M (A : Type) : Type := State -> Outcome A * State.

#[global] Instance M_ret : MRet M := fun A a st => (Return a, st).

#[global] Instance M_bind : MBind M := fun A B f m st =>
  match m st with
  | (Return a, st') => f a st'
  | (Throw e, st') => (Throw e, st')
  end.

Definition throw {A} (e : JsError) : M A := fun st => (Throw e, st).

(** [try { m } catch (e) { h e }] *)
Definition try_catch {A} (m : M A) (h : JsError -> M A) : M A := fun st =>
  match m st with
  | (Return a, st') => (Return a, st')
  | (Throw e, st') => h e st'
  end.

Definition lift {A} (o : Outcome A) : M A := fun st => (o, st).

Definition getItem (key : string) : M (option string) := fun st =>
  (Return (localStorage st !! key), st).

Definition setItem (key value : string) : M unit := fun st =>
  (Return tt,
   mkState (<[key := value]> (localStorage st)) (clock st) (trace st)
           (query_data st) (success st) (localSuccess st)).

Definition Date_now : M Z := fun st => (Return (clock st), st).

Definition emit (e : Event) : M unit := fun st =>
  (Return tt,
   mkState (localStorage st) (clock st) (trace st ++ [e])
           (query_data st) (success st) (localSuccess st)).

Definition get_query_data : M JsVal := fun st => (Return (query_data st), st).

(** [queryClient.setQueryData(["waitlist", "count"], d)] *)
Definition setQueryData (d : JsVal) : M unit := fun st =>
  (Return tt,
   mkState (localStorage st) (clock st) (trace st) d (success st) (localSuccess st)).

Definition get_success : M bool := fun st => (Return (success st), st).

Definition setSuccess (b : bool) : M unit := fun st =>
  (Return tt,
   mkState (localStorage st) (clock st) (trace st) (query_data st) b (localSuccess st)).

Definition setLocalSuccess (b : bool) : M unit := fun st =>
  (Return tt,
   mkState (localStorage st) (clock st) (trace st) (query_data st) (success st) b).

(** [await fetch(url, ...)]: the request goes out, time passes, and the
    promise settles with a response or rejects. *)
Definition fetch (x : Exchange) (method url : string) (body : option string)
  : M (Z * string) := fun st =>
  let st' := mkState (localStorage st) (clock st + Z.of_N (latency x))
                     (trace st ++ [Fetched method url body])
                     (query_data st) (success st) (localSuccess st) in
  match reply x with
  | NetworkDown reason => (Throw (NetworkFailure reason), st')
  | Response status text => (Return (status, text), st')
  end.

(** [res.json()] *)
Definition json (text : string) : M JsVal :=
  match JSON_parse text with
  | Some v => mret v
  | None => throw SyntaxError
  end.

(** ** The source, function by function *)

Definition getWaitlistCount (x : Exchange) : M JsVal :=
  res ← fetch x "GET" "/api/waitlist/count" None;
  if negb (ok res.1) then throw (Error_ "Failed to get waitlist count")
  else json res.2.

Definition joinWaitlist (x : Exchange) (email : string) : M unit :=
  response ← fetch x "POST" "/api/waitlist/join"
               (Some (JSON_stringify (JObj [("email", JStr email)])));
  if negb (ok response.1) then
    errorData ← try_catch (json response.2) (fun _ => mret (JObj []));
    reason ← lift (Get errorData "error");
    match ToString (js_or reason (JStr "Failed to join waitlist")) with
    | Some message => throw (Error_ message)
    | None => throw TypeError
    end
  else mret tt.

Definition LOCAL_STORAGE_KEY : string := "waitlist_count".
Definition CACHE_DURATION : Z := 2 * 60 * 60 * 1000.

(** The object literal [{ count: c, timestamp: t }]. *)
Definition cache_record (c : JsVal) (t : Z) : JsVal :=
  JObj [("count", c); ("timestamp", JNum (Int t))].

(** The [try] block of [queryFn]: [Some] is the early [return { count }],
    [None] falls through to the fetch. *)
Definition read_cache (cachedData : string) : M (option JsVal) :=
  parsed ← json cachedData;
  count ← lift (Get parsed "count");
  timestamp ← lift (Get parsed "timestamp");
  now ← Date_now;
  age ← lift (js_sub (JNum (Int now)) timestamp);
  let isExpired := num_gt age (Int CACHE_DURATION) in
  if negb isExpired then mret (Some (JObj [("count", count)]))
  else mret None.

Definition queryFn (x : Exchange) : M JsVal :=
  cachedData ← getItem LOCAL_STORAGE_KEY;
  served ← match cachedData with
           | Some (String c r) =>
               try_catch (read_cache (String c r))
                 (fun e =>
                    emit (ConsoleError "Error parsing waitlist cache:" e);;
                    mret None)
           | _ => mret None
           end;
  match served with
  | Some hit => mret hit
  | None =>
      data ← getWaitlistCount x;
      count ← lift (Get data "count");
      now ← Date_now;
      setItem LOCAL_STORAGE_KEY (JSON_stringify (cache_record count now));;
      mret data
  end.

(** One run of [queryFn] by [useQuery]: what it resolves to becomes
    [query.data]; a rejection leaves it as it was.  (When the library runs
    it, and how often it retries, is not part of the model.) *)
Definition getCount (x : Exchange) : M unit :=
  try_catch (data ← queryFn x; setQueryData data) (fun _ => mret tt).

(** [query.data?.count ?? 0] *)
Definition count_of (data : JsVal) : JsVal :=
  nullish (GetOpt data "count") (JNum (Int 0)).

(** The [count] the hook returns, which the page displays. *)
Definition count (st : State) : JsVal := count_of (query_data st).

Definition onSuccess : M unit :=
  setSuccess true;;
  data ← get_query_data;
  newCount ← lift (js_add (count_of data) (JNum (Int 1)));
  setQueryData (JObj [("count", newCount)]);;
  now ← Date_now;
  setItem LOCAL_STORAGE_KEY (JSON_stringify (cache_record newCount now));;
  emit Confetti;;
  emit (ToastSuccess "You're on the waitlist! 🎉").

(** Everything thrown in this program is an [Error] instance, so the
    [instanceof] test of the source always takes its first branch. *)
Definition onError (error : JsError) : M unit :=
  let errorMessage :=
    match error with
    | Error_ _ | TypeError | SyntaxError | NetworkFailure _ => message_of error
    end in
  emit (ToastError errorMessage).

(** [mutate(email)] of [useMutation]: [onSuccess] after the request went
    through, [onError] with whatever was thrown on the way. *)
Definition mutate (x : Exchange) (email : string) : M unit :=
  try_catch (joinWaitlist x email;; onSuccess) onError.

Definition SUCCESS_KEY : string := "waitlist_success".

(** The body of the [useEffect] of [WaitlistForm]. *)
Definition useEffect_body : M unit :=
  s ← get_success;
  if (s : bool) then
    setItem SUCCESS_KEY "true";;
    setLocalSuccess true
  else
    stored ← getItem SUCCESS_KEY;
    if decide (stored = Some "true") then setLocalSuccess true else mret tt.

(** ** What the user does *)

(** A full (re)load: React state starts afresh, storage stays, and the
    effect runs on mount. *)
Definition load (st : State) : State :=
  (useEffect_body
     (mkState (localStorage st) (clock st) (trace st) JUndefined false false)).2.

(** [handleJoinWaitlist]: the mutation, then the render it causes; the
    effect runs again when [waitlist.success] has changed. *)
Definition submit (x : Exchange) (email : string) (st : State) : State :=
  let st' := (mutate x email st).2 in
  if Bool.eqb (success st') (success st) then st' else (useEffect_body st').2.

Inductive Op :=
  | Load
  | GetCount (x : Exchange)
  | Submit (x : Exchange) (email : string).

Definition run_op (st : State) (o : Op) : State :=
  match o with
  | Load => load st
  | GetCount x => (getCount x st).2
  | Submit x email => submit x email st
  end.

Definition run (ops : list Op) (st : State) : State := fold_left run_op ops st.

Definition is_fetch (e : Event) : bool :=
  match e with
  | Fetched _ _ _ => true
  | _ => false
  end.

Definition network_calls (t : list Event) : nat :=
  length (List.filter is_fetch t).

(** ** Vocabulary of the statements *)

(** Scanning a prefix: the state reached and the tokens produced. *)
Fixpoint lex_run (st : LexState) (s : string) : option (LexState * list Token) :=
  match s with
  | EmptyString => Some (st, [])
  | String c r =>
      match lex_step st c with
      | Some (st', out) =>
          match lex_run st' r with
          | Some (st2, out') => Some (st2, (out ++ out')%list)
          | None => None
          end
      | None => None
      end
  end.

(** The part of [queryFn] that runs once the cache has been given up. *)
Definition refetch (x : Exchange) : M JsVal :=
  data ← getWaitlistCount x;
  count ← lift (Get data "count");
  now ← Date_now;
  setItem LOCAL_STORAGE_KEY (JSON_stringify (cache_record count now));;
  mret data.

(** The stored entry cannot be served: there is none, it does not parse (the
    empty string included), it parses to [null], or its numeric timestamp is
    more than the cache duration old. *)
Inductive stale (st : State) : Prop :=
  | stale_absent :
      localStorage st !! LOCAL_STORAGE_KEY = None -> stale st
  | stale_unreadable s :
      localStorage st !! LOCAL_STORAGE_KEY = Some s ->
      JSON_parse s = None -> stale st
  | stale_null s :
      localStorage st !! LOCAL_STORAGE_KEY = Some s ->
      JSON_parse s = Some JNull -> stale st
  | stale_expired s v t :
      localStorage st !! LOCAL_STORAGE_KEY = Some s ->
      JSON_parse s = Some v ->
      Get v "timestamp" = Return (JNum (Int t)) ->
      CACHE_DURATION < clock st - t -> stale st.

Definition logged (st : State) (log : list Event) : State :=
  mkState (localStorage st) (clock st) (trace st ++ log)
          (query_data st) (success st) (localSuccess st).

Definition after_fetch (x : Exchange) (st : State) : State :=
  mkState (localStorage st) (clock st + Z.of_N (latency x))
          (trace st ++ [Fetched "GET" "/api/waitlist/count" None])
          (query_data st) (success st) (localSuccess st).

(** The error a failed count request surfaces as. *)
Definition fetch_error (r : Reply) : option JsError :=
  match r with
  | NetworkDown reason => Some (NetworkFailure reason)
  | Response status _ =>
      if ok status then None else Some (Error_ "Failed to get waitlist count")
  end.

(** A non-negative integer among those the doubles of the code hold exactly
    ([Number.isSafeInteger]). *)
Definition is_nonneg_integer (v : JsVal) : bool :=
  match v with
  | JNum (Int n) => (0 <=? n) && (n <=? MAX_SAFE_INTEGER)
  | _ => false
  end.

Definition join_ok (x : Exchange) : bool :=
  match reply x with
  | Response status _ => ok status
  | NetworkDown _ => false
  end.

Definition join_request (email : string) : Event :=
  Fetched "POST" "/api/waitlist/join"
    (Some (JSON_stringify (JObj [("email", JStr email)]))).

(** The page once the join request has been answered. *)
Definition posted (x : Exchange) (email : string) (st : State) : State :=
  mkState (localStorage st) (clock st + Z.of_N (latency x))
          (trace st ++ [join_request email])
          (query_data st) (success st) (localSuccess st).

Definition GENERIC_JOIN_ERROR : string := "Failed to join waitlist".

Definition flag_set (m : gmap string string) : Prop :=
  m !! SUCCESS_KEY = Some "true".

(** [m] keeps the property [Q] of the stored data and of [localSuccess]. *)
Definition preserves (Q : gmap string string -> bool -> Prop) {A} (m : M A) : Prop :=
  forall st, Q (localStorage st) (localSuccess st) ->
             Q (localStorage (m st).2) (localSuccess (m st).2).

(** ** Example pages and exchanges *)

(** A page just opened, with nothing stored. *)
Definition fresh_page : State := mkState ∅ 1000 [] JUndefined false false.

(** A page just opened at time [now], the cache holding the entry the
    program itself would have written for [n] at time [timestamp]. *)
Definition cached_page (n timestamp now : Z) : State :=
  mkState {[ LOCAL_STORAGE_KEY :=
               JSON_stringify (cache_record (JNum (Int n)) timestamp) ]}
          now [] JUndefined false false.

(** The server answering the count request with [n]. *)
Definition count_reply (n : Z) : Exchange :=
  mkExchange 5 (Response 200 (JSON_stringify (JObj [("count", JNum (Int n))]))).

Definition offline : Exchange := mkExchange 5 (NetworkDown "Failed to fetch").

(** The server accepting a join request. *)
Definition joined : Exchange := mkExchange 5 (Response 200 EmptyString).

(** The server refusing a join request with the given body. *)
Definition rejected (body : string) : Exchange := mkExchange 5 (Response 400 body).

(** The refusal [{"error":"already joined","retryAfter":1.5}]. *)
Definition retry_later : string :=
  JSON_stringify (JObj [("error", JStr "already joined");
                        ("retryAfter", JNum (Dec 15 1))]).

(** The server failing on the count request. *)
Definition unavailable : Exchange :=
  mkExchange 5 (Response 503 "Service Unavailable").

(** A page just opened at time [now], the cache holding the text [entry]. *)
Definition stored_page (entry : string) (now : Z) : State :=
  mkState {[ LOCAL_STORAGE_KEY := entry ]} now [] JUndefined false false.

(** The cache entry [{"count":"5","timestamp":1000}], whose count is a text,
    and the page that has read it at time 2000. *)
Definition text_count_entry : string :=
  JSON_stringify (cache_record (JStr "5") 1000).

Definition text_count_page : State :=
  (getCount offline (stored_page text_count_entry 2000)).2.


(** ** What the form renders, and what a user can do with it *)

Inductive View :=
  | WelcomeMessage
  | JoinForm.

(** The conditional in the JSX of [WaitlistForm], and the value it hands to
    [NumberFlow]. *)
Definition WaitlistForm (st : State) : View * JsVal :=
  (if localSuccess st then WelcomeMessage else JoinForm, count st).

(** [handleJoinWaitlist] is wired to the [onSubmit] of the form and to nothing
    else: where the welcome message stands in for the form there is nothing
    to submit. *)
Definition ui_op (st : State) (o : Op) : State :=
  match o, (WaitlistForm st).1 with
  | Submit _ _, WelcomeMessage => st
  | _, _ => run_op st o
  end.

Definition ui_run (ops : list Op) (st : State) : State := fold_left ui_op ops st.

Definition is_confetti (e : Event) : bool :=
  match e with
  | Confetti => true
  | _ => false
  end.

(** How often [confettiBurst] has gone off. *)
Definition celebrations (t : list Event) : nat :=
  length (List.filter is_confetti t).

(** The page is between two renders: [success] has been followed by its
    effect, and [localSuccess] says what the stored flag says. *)
Definition settled (st : State) : Prop :=
  (success st = true -> localSuccess st = true) /\
  (localSuccess st = true <-> flag_set (localStorage st)).

(** Celebrations so far, plus the one the form can still lead to. *)
Definition budget (st : State) : nat :=
  (celebrations (trace st) + (if localSuccess st then 0 else 1))%nat.

(** ** [.lintstagedrc.js] *)

(** [filenames.join(sep)] *)
Fixpoint join (sep : string) (filenames : list string) : string :=
  match filenames with
  | [] => EmptyString
  | [f] => f
  | f :: rest => f +:+ sep +:+ join sep rest
  end.

(** What a glob is mapped to: a function from the staged files to one
    command or to a list of commands. *)
Inductive Task :=
  | Commands (f : list string -> list string)
  | Command (f : list string -> string).

Definition lintstagedrc : list (string * Task) :=
  [ ("*.js",
     Commands (fun filenames =>
       [ "eslint --fix " +:+ join " " filenames;
         "prettier --write " +:+ join " " filenames ]));
    ("*.{md,json}",
     Command (fun filenames => "prettier --write " +:+ join " " filenames)) ].

(** The commands the configuration yields for a glob and the files staged
    under it. *)
Definition commands_for (glob : string) (filenames : list string) : list string :=
  match List.find (fun entry => String.eqb glob entry.1) lintstagedrc with
  | Some (_, Commands f) => f filenames
  | Some (_, Command f) => [f filenames]
  | None => []
  end.

Definition has_space (s : string) : bool :=
  existsb (Ascii.eqb " "%char) (list_ascii_of_string s).

(** The words of a command line: maximal runs of characters other than the
    space.  [cur] is the word being read, reversed. *)
Fixpoint split_words (cur : string) (s : string) : list string :=
  match s with
  | EmptyString =>
      match cur with
      | EmptyString => []
      | _ => [rev_string cur]
      end
  | String c r =>
      if Ascii.eqb " "%char c then
        match cur with
        | EmptyString => split_words EmptyString r
        | _ => rev_string cur :: split_words EmptyString r
        end
      else split_words (String c cur) r
  end.

Definition words (s : string) : list string := split_words EmptyString s.

(** * Proofs *)

#[local] Arguments String.append !_ _ / : simpl nomatch.

Lemma is_digit_string_of_uint d : all_digits (NilEmpty.string_of_uint d) = true.
Proof. induction d; simpl; auto. Qed.

Lemma rev_app_app a b c : rev_app (rev_app a b) c = rev_app b (a +:+ c).
Proof.
  revert b c. induction a as [|x a IH]; intros b c; simpl; [done|].
  rewrite IH. done.
Qed.

Lemma append_empty_r s : s +:+ EmptyString = s.
Proof. induction s; simpl; congruence. Qed.

Lemma rev_string_involutive s : rev_string (rev_string s) = s.
Proof. unfold rev_string. rewrite rev_app_app. apply append_empty_r. Qed.

Lemma uint_beq_refl d : uint_beq d d = true.
Proof. induction d; simpl; auto. Qed.

Lemma Pos_to_uint_normal p : unorm (Pos.to_uint p) = Pos.to_uint p.
Proof.
  rewrite <- (DecimalPos.Unsigned.to_of (Pos.to_uint p)).
  rewrite DecimalPos.Unsigned.of_to. reflexivity.
Qed.

Lemma digits_no_minus d r : NilEmpty.string_of_uint d <> String "-" r.
Proof. destruct d; simpl; congruence. Qed.

Lemma span_all_digits s : all_digits s = true -> span_digits s = (s, EmptyString).
Proof.
  induction s as [|c r IH]; simpl; [done|].
  intros [Hc Hr]%andb_prop. rewrite Hc, (IH Hr). done.
Qed.

Lemma uint_of_string_of_pos p :
  NilZero.uint_of_string (NilEmpty.string_of_uint (Pos.to_uint p))
  = Some (Pos.to_uint p).
Proof.
  pose proof (DecimalPos.Unsigned.to_uint_nonnil p) as Hnil.
  generalize (NilZero.usu (Pos.to_uint p) Hnil).
  unfold NilZero.string_of_uint. destruct (Pos.to_uint p); congruence.
Qed.

Lemma numeral_value_digits p :
  numeral_value (NilEmpty.string_of_uint (Pos.to_uint p)) = Some (Int (Z.pos p)).
Proof.
  unfold numeral_value.
  set (text := NilEmpty.string_of_uint (Pos.to_uint p)).
  replace (match text with String "-" r0 => (true, r0) | _ => (false, text) end)
    with (false, text).
  2:{ destruct text as [|c r] eqn:E; [done|].
      assert (c <> "-"%char) by (intros ->; exact (digits_no_minus _ _ E)).
      destruct c as [[] [] [] [] [] [] [] []]; try reflexivity. congruence. }
  cbn [fst snd]. rewrite span_all_digits by apply is_digit_string_of_uint.
  cbn [fst snd]. subst text.
  rewrite uint_of_string_of_pos, Pos_to_uint_normal, uint_beq_refl.
  do 2 f_equal. change (N.of_uint (Pos.to_uint p)) with (Pos.of_uint (Pos.to_uint p)).
  rewrite DecimalPos.Unsigned.of_to. reflexivity.
Qed.

Lemma numeral_value_minus p :
  numeral_value (String "-" (NilEmpty.string_of_uint (Pos.to_uint p)))
  = Some (Int (Z.neg p)).
Proof.
  unfold numeral_value. cbn [fst snd].
  rewrite span_all_digits by apply is_digit_string_of_uint. cbn [fst snd].
  rewrite uint_of_string_of_pos, Pos_to_uint_normal, uint_beq_refl.
  do 2 f_equal. change (N.of_uint (Pos.to_uint p)) with (Pos.of_uint (Pos.to_uint p)).
  rewrite DecimalPos.Unsigned.of_to. reflexivity.
Qed.

Lemma string_of_uint_nonnil d :
  d <> Nil -> NilZero.string_of_uint d = NilEmpty.string_of_uint d.
Proof. destruct d; simpl; congruence. Qed.

Lemma Z_to_string_value z : numeral_value (Z_to_string z) = Some (Int z).
Proof.
  destruct z as [|p|p]; unfold Z_to_string; simpl.
  - reflexivity.
  - rewrite string_of_uint_nonnil by apply DecimalPos.Unsigned.to_uint_nonnil.
    apply numeral_value_digits.
  - rewrite string_of_uint_nonnil by apply DecimalPos.Unsigned.to_uint_nonnil.
    apply numeral_value_minus.
Qed.

Lemma is_digit_numeral_char c : is_digit c = true -> is_numeral_char c = true.
Proof. unfold is_numeral_char. intros ->. reflexivity. Qed.

Lemma lex_digit_run ds : forall seen rest,
  all_digits ds = true ->
  lex (LNumber seen) (ds +:+ rest) = lex (LNumber (rev_app ds seen)) rest.
Proof.
  induction ds as [|d ds IH]; intros seen rest Hds; [reflexivity|].
  simpl in Hds. apply andb_prop in Hds as [Hd Hds].
  change (String d ds +:+ rest) with (String d (ds +:+ rest)).
  cbn [lex lex_step rev_app].
  rewrite (is_digit_numeral_char _ Hd), IH by assumption.
  generalize (lex (LNumber (rev_app ds (String d seen))) rest).
  intros [l|]; reflexivity.
Qed.

Lemma Z_to_string_shape z :
  exists c ds, Z_to_string z = String c ds /\
               idle_step c = Some (LNumber (String c EmptyString), []) /\
               all_digits ds = true.
Proof.
  assert (Hd : forall d, d <> Nil ->
     exists c ds, NilEmpty.string_of_uint d = String c ds /\
               idle_step c = Some (LNumber (String c EmptyString), []) /\
               all_digits ds = true).
  { intros d Hd. destruct d; [done|..]; simpl;
      (eexists _, _; split; [reflexivity|]; split; [reflexivity|];
       apply is_digit_string_of_uint). }
  destruct z as [|p|p]; unfold Z_to_string; simpl.
  - by exists "0"%char, EmptyString.
  - rewrite string_of_uint_nonnil by apply DecimalPos.Unsigned.to_uint_nonnil.
    apply Hd, DecimalPos.Unsigned.to_uint_nonnil.
  - rewrite string_of_uint_nonnil by apply DecimalPos.Unsigned.to_uint_nonnil.
    eexists _, _; split; [reflexivity|]; split; [reflexivity|].
    apply is_digit_string_of_uint.
Qed.

(** Scanning a printed integer that is followed by a character which
    cannot continue it. *)
Lemma lex_numeral z c0 rest st' out :
  is_numeral_char c0 = false ->
  idle_step c0 = Some (st', out) ->
  lex LIdle (Z_to_string z +:+ String c0 rest)
  = match lex st' rest with
    | Some r => Some (TNumber (Int z) :: out ++ r)%list
    | None => None
    end.
Proof.
  intros Hc0 Hidle.
  pose proof (Z_to_string_value z) as Hval.
  destruct (Z_to_string_shape z) as (c & ds & Hs & Hc & Hds).
  rewrite Hs in *.
  change (String c ds +:+ String c0 rest) with (String c (ds +:+ String c0 rest)).
  cbn [lex lex_step]. rewrite Hc.
  rewrite lex_digit_run by assumption.
  cbn [lex lex_step]. rewrite Hc0.
  unfold rev_string. rewrite rev_app_app. cbn [rev_app].
  rewrite append_empty_r, Hval, Hidle.
  generalize (lex st' rest). intros [l|]; reflexivity.
Qed.

Lemma append_assoc a b c : (a +:+ b) +:+ c = a +:+ (b +:+ c).
Proof. induction a; simpl; congruence. Qed.

(** What the program writes into the cache reads back as written. *)
Lemma cache_record_text (n t : Z) :
  JSON_stringify (cache_record (JNum (Int n)) t)
  = ("{" +:+ quote "count" +:+ ":") +:+ Z_to_string n +:+
    ("," +:+ quote "timestamp" +:+ ":") +:+ Z_to_string t +:+ "}".
Proof.
  unfold JSON_stringify, cache_record.
  cbn -[Z_to_string escape].
  repeat match goal with
         | |- context [escape ?c] =>
             let r := eval vm_compute in (escape c) in change (escape c) with r
         end.
  repeat (rewrite ?append_assoc; cbn -[Z_to_string]).
  reflexivity.
Qed.

Lemma lex_app p : forall st r,
  lex st (p +:+ r)
  = match lex_run st p with
    | Some (st', out) =>
        match lex st' r with
        | Some ts => Some (out ++ ts)%list
        | None => None
        end
    | None => None
    end.
Proof.
  induction p as [|c p IH]; intros st r.
  - cbn [lex_run String.append]. destruct (lex st r); reflexivity.
  - change (String c p +:+ r) with (String c (p +:+ r)).
    cbn [lex lex_run]. destruct (lex_step st c) as [[st' out]|]; [|reflexivity].
    rewrite IH. destruct (lex_run st' p) as [[st2 out']|]; [|reflexivity].
    destruct (lex st2 r); [|reflexivity].
    by rewrite app_assoc.
Qed.

Lemma cache_record_roundtrip (n t : Z) :
  JSON_parse (JSON_stringify (cache_record (JNum (Int n)) t))
  = Some (cache_record (JNum (Int n)) t).
Proof.
  unfold JSON_parse. rewrite cache_record_text.
  rewrite lex_app.
  replace (lex_run LIdle ("{" +:+ quote "count" +:+ ":"))
    with (Some (LIdle, [TLBrace; TString "count"; TColon])) by (vm_compute; reflexivity).
  change (("," +:+ quote "timestamp" +:+ ":") +:+ Z_to_string t +:+ "}")
    with (String "," ((quote "timestamp" +:+ ":") +:+ Z_to_string t +:+ "}")).
  rewrite (lex_numeral n "," _ LIdle [TComma]) by reflexivity.
  rewrite lex_app.
  replace (lex_run LIdle (quote "timestamp" +:+ ":"))
    with (Some (LIdle, [TString "timestamp"; TColon])) by (vm_compute; reflexivity).
  rewrite (lex_numeral t "}" _ LIdle [TRBrace]) by reflexivity.
  reflexivity.
Qed.

(** Numerals are read as [JSON.parse] reads them, fraction and exponent
    included, and printed as [JSON.stringify] prints them. *)
Example JSON_parse_numerals :
  JSON_parse "1.5" = Some (JNum (Dec 15 1)) /\
  JSON_parse "1e3" = Some (JNum (Int 1000)) /\
  JSON_parse "-2.50E-1" = Some (JNum (Dec (-25) 2)) /\
  JSON_parse "-0.0" = Some (JNum (Int 0)) /\
  JSON_parse "[1.0, 12e-1]" = Some (JArr [JNum (Int 1); JNum (Dec 12 1)]) /\
  JSON_parse "01" = None /\ JSON_parse "1." = None /\ JSON_parse ".5" = None /\
  JSON_parse "1e" = None /\ JSON_parse "+1" = None /\ JSON_parse "0x10" = None /\
  JSON_parse retry_later
  = Some (JObj [("error", JStr "already joined"); ("retryAfter", JNum (Dec 15 1))]) /\
  JSON_stringify (JArr [JNum (Dec 15 1); JNum (Dec (-25) 2); JNum (Dec 1 7)])
  = "[1.5,-0.25,1e-7]".
Proof. repeat split; vm_compute; reflexivity. Qed.

(** What [Number()] makes of a text. *)
Example StringToNumber_literals :
  StringToNumber "0x10" = Int 16 /\ StringToNumber "1e3" = Int 1000 /\
  StringToNumber " 1.5 " = Dec 15 1 /\ StringToNumber "-Infinity" = Inf true /\
  StringToNumber EmptyString = Int 0 /\ StringToNumber ".5" = Dec 5 1 /\
  StringToNumber "5." = Int 5 /\ StringToNumber "1,5" = NaN /\
  StringToNumber "12px" = NaN.
Proof. repeat split; vm_compute; reflexivity. Qed.

(** ** What every step keeps *)

Section Preservation.
(** A property of the stored data and of [localSuccess] that survives a
    write to the count entry, a write of [true] to the flag, and
    [setLocalSuccess(true)]. *)
Variable Q : gmap string string -> bool -> Prop.
Hypothesis Q_count : forall m l v, Q m l -> Q (<[LOCAL_STORAGE_KEY := v]> m) l.
Hypothesis Q_flag : forall m l, Q m l -> Q (<[SUCCESS_KEY := "true"]> m) l.
Hypothesis Q_shown : forall m l, Q m l -> Q m true.
Hypothesis Q_load : forall st,
  Q (localStorage st) (localSuccess st) ->
  Q (localStorage (load st)) (localSuccess (load st)).

Lemma preserves_ret {A} (a : A) : preserves Q (mret a).
Proof. by intros st H. Qed.

Lemma preserves_throw {A} e : preserves Q (@throw A e).
Proof. by intros st H. Qed.

Lemma preserves_lift {A} (o : Outcome A) : preserves Q (lift o).
Proof. by intros st H. Qed.

Lemma preserves_bind {A B} (m : M A) (f : A -> M B) :
  preserves Q m -> (forall a, preserves Q (f a)) -> preserves Q (m ≫= f).
Proof.
  intros Hm Hf st H. specialize (Hm st H).
  unfold mbind, M_bind. destruct (m st) as [[a|e] st']; simpl in *; [|done].
  by apply Hf.
Qed.

Lemma preserves_try_catch {A} (m : M A) (h : JsError -> M A) :
  preserves Q m -> (forall e, preserves Q (h e)) -> preserves Q (try_catch m h).
Proof.
  intros Hm Hh st H. specialize (Hm st H).
  unfold try_catch. destruct (m st) as [[a|e] st']; simpl in *; [done|].
  by apply Hh.
Qed.

Lemma preserves_getItem k : preserves Q (getItem k).
Proof. by intros st H. Qed.

Lemma preserves_Date_now : preserves Q Date_now.
Proof. by intros st H. Qed.

Lemma preserves_emit e : preserves Q (emit e).
Proof. by intros st H. Qed.

Lemma preserves_get_query_data : preserves Q get_query_data.
Proof. by intros st H. Qed.

Lemma preserves_setQueryData d : preserves Q (setQueryData d).
Proof. by intros st H. Qed.

Lemma preserves_get_success : preserves Q get_success.
Proof. by intros st H. Qed.

Lemma preserves_setSuccess b : preserves Q (setSuccess b).
Proof. by intros st H. Qed.

Lemma preserves_setLocalSuccess : preserves Q (setLocalSuccess true).
Proof. intros st H. by apply Q_shown in H. Qed.

Lemma preserves_fetch x method url body : preserves Q (fetch x method url body).
Proof. intros st H. unfold fetch. by destruct (reply x). Qed.

Lemma preserves_json text : preserves Q (json text).
Proof. intros st H. unfold json. by destruct (JSON_parse text). Qed.

Lemma preserves_set_count v : preserves Q (setItem LOCAL_STORAGE_KEY v).
Proof. intros st H. by apply Q_count. Qed.

Lemma preserves_set_flag : preserves Q (setItem SUCCESS_KEY "true").
Proof. intros st H. by apply Q_flag. Qed.

Ltac preserve :=
  repeat first
    [ apply preserves_ret | apply preserves_throw | apply preserves_lift
    | apply preserves_getItem | apply preserves_Date_now | apply preserves_emit
    | apply preserves_get_query_data | apply preserves_setQueryData
    | apply preserves_get_success | apply preserves_setSuccess
    | apply preserves_setLocalSuccess | apply preserves_fetch
    | apply preserves_json | apply preserves_set_count | apply preserves_set_flag
    | apply preserves_bind; [|intros ?]
    | apply preserves_try_catch; [|intros ?]
    | case_match ].

Lemma preserves_queryFn x : preserves Q (queryFn x).
Proof. unfold queryFn, read_cache, getWaitlistCount. preserve. Qed.

Lemma preserves_getCount x : preserves Q (getCount x).
Proof.
  unfold getCount. apply preserves_try_catch; [|intros; preserve].
  apply preserves_bind; [apply preserves_queryFn|intros; preserve].
Qed.

Lemma preserves_mutate x email : preserves Q (mutate x email).
Proof. unfold mutate, joinWaitlist, onSuccess, onError. preserve. Qed.

Lemma preserves_useEffect_body : preserves Q useEffect_body.
Proof. unfold useEffect_body. preserve. Qed.

Lemma preserves_run_op o st :
  Q (localStorage st) (localSuccess st) ->
  Q (localStorage (run_op st o)) (localSuccess (run_op st o)).
Proof.
  intros H. destruct o as [|x|x email]; simpl.
  - by apply Q_load.
  - by apply preserves_getCount.
  - unfold submit. case_match; [by apply preserves_mutate|].
    by apply preserves_useEffect_body, preserves_mutate.
Qed.

Lemma preserves_run ops : forall st,
  Q (localStorage st) (localSuccess st) ->
  Q (localStorage (run ops st)) (localSuccess (run ops st)).
Proof.
  induction ops as [|o ops IH]; intros st H; [done|].
  simpl. by apply IH, preserves_run_op.
Qed.
End Preservation.

Lemma load_storage st : localStorage (load st) = localStorage st.
Proof.
  unfold load, useEffect_body.
  unfold mbind, M_bind, get_success, getItem; cbn [localStorage success fst snd].
  by case_match.
Qed.

Lemma load_reads_flag st :
  flag_set (localStorage st) -> localSuccess (load st) = true.
Proof.
  unfold flag_set, load, useEffect_body. intros H.
  unfold mbind, M_bind, get_success, getItem; cbn [localStorage success fst snd].
  rewrite H. reflexivity.
Qed.

Lemma flag_set_stable ops st :
  flag_set (localStorage st) -> flag_set (localStorage (run ops st)).
Proof.
  apply (preserves_run (fun m _ => flag_set m)); unfold flag_set.
  - intros m _ v H. by rewrite lookup_insert_ne.
  - intros m _ H. by rewrite lookup_insert_eq.
  - done.
  - intros st0 H. by rewrite load_storage.
Qed.

Lemma submitted_stable ops st :
  flag_set (localStorage st) -> localSuccess st = true ->
  localSuccess (run ops st) = true.
Proof.
  intros Hf Hl.
  apply (preserves_run (fun m l => flag_set m /\ l = true)); unfold flag_set; [..|done].
  - intros m l v [H ->]. by rewrite lookup_insert_ne.
  - intros m l [H ->]. by rewrite lookup_insert_eq.
  - intros m l [H _]. done.
  - intros st0 [H _]. rewrite load_storage. split; [done|]. by apply load_reads_flag.
Qed.

(** C9. Once the success flag is stored as [true], no sequence of loads,
    count queries and submissions unsets it; every load reads it and comes
    up in the submitted state, and a page in the submitted state stays
    there. *)
Theorem success_flag_persists st ops :
  flag_set (localStorage st) ->
  flag_set (localStorage (run ops st)) /\
  localSuccess (load (run ops st)) = true /\
  (localSuccess st = true -> localSuccess (run ops st) = true).
Proof.
  intros H. split; [by apply flag_set_stable|]. split.
  - by apply load_reads_flag, flag_set_stable.
  - by apply submitted_stable.
Qed.

Ltac unfold_M :=
  unfold json in *;
  unfold mbind, M_bind, mret, M_ret, throw, try_catch, lift, getItem, setItem,
    Date_now, emit, get_query_data, setQueryData, get_success, setSuccess,
    setLocalSuccess in *.

Lemma JSON_parse_empty : JSON_parse EmptyString = None.
Proof. reflexivity. Qed.

Lemma Get_number_is_member v key n :
  Get v key = Return (JNum n) ->
  exists m, v = JObj m /\ lookup_member key m = Some (JNum n).
Proof.
  destruct v; simpl; try discriminate. intros [= H].
  exists members. split; [done|].
  destruct (lookup_member key members); simpl in H; congruence.
Qed.

(** What the [try] block yields on an entry whose timestamp is a number. *)
Lemma read_cache_number st s v t :
  JSON_parse s = Some v ->
  Get v "timestamp" = Return (JNum (Int t)) ->
  read_cache s st
  = (Return (if CACHE_DURATION <? clock st - t then None
             else Some (JObj [("count", GetOpt v "count")])), st).
Proof.
  intros Hp Ht. destruct (Get_number_is_member _ _ _ Ht) as (m & -> & Hm).
  unfold read_cache. unfold_M. rewrite Hp. simpl in *. rewrite Hm. simpl.
  by destruct (CACHE_DURATION <? clock st - t).
Qed.

(** An entry whose numeric timestamp is no more than the cache duration
    old is served. *)
Lemma fresh_cache_served_at st x s v t :
  localStorage st !! LOCAL_STORAGE_KEY = Some s ->
  JSON_parse s = Some v ->
  Get v "timestamp" = Return (JNum (Int t)) ->
  clock st - t <= CACHE_DURATION ->
  queryFn x st = (Return (JObj [("count", GetOpt v "count")]), st).
Proof.
  intros Hs Hp Ht Hage.
  unfold queryFn. unfold mbind at 1, M_bind at 1, getItem. rewrite Hs.
  destruct s as [|c r]; [by rewrite JSON_parse_empty in Hp|].
  unfold mbind, M_bind, try_catch.
  rewrite (read_cache_number _ _ _ _ Hp Ht).
  destruct (Z.ltb_spec CACHE_DURATION (clock st - t)); [lia|done].
Qed.

(** C3. A stored entry younger than the cache duration is served as it is:
    [queryFn] returns the stored count and leaves the page untouched, so no
    request is made. *)
Theorem fresh_cache_served st x s v t :
  localStorage st !! LOCAL_STORAGE_KEY = Some s ->
  JSON_parse s = Some v ->
  Get v "timestamp" = Return (JNum (Int t)) ->
  clock st - t < CACHE_DURATION ->
  queryFn x st = (Return (JObj [("count", GetOpt v "count")]), st) /\
  network_calls (trace (queryFn x st).2) = network_calls (trace st).
Proof.
  intros Hs Hp Ht Hage.
  assert (Hq : queryFn x st = (Return (JObj [("count", GetOpt v "count")]), st)).
  { unfold queryFn. unfold mbind at 1, M_bind at 1, getItem. rewrite Hs.
    destruct s as [|c r]; [by rewrite JSON_parse_empty in Hp|].
    unfold mbind, M_bind, try_catch.
    rewrite (read_cache_number _ _ _ _ Hp Ht).
    destruct (Z.ltb_spec CACHE_DURATION (clock st - t)); [lia|done]. }
  by rewrite Hq.
Qed.

Lemma network_calls_app t u :
  network_calls (t ++ u) = (network_calls t + network_calls u)%nat.
Proof. unfold network_calls. by rewrite List.filter_app, length_app. Qed.

Lemma stale_falls_through st x :
  stale st ->
  exists log, network_calls log = 0%nat /\
              queryFn x st = refetch x (logged st log).
Proof.
  assert (Hid : logged st [] = st).
  { destruct st. unfold logged. simpl. by rewrite app_nil_r. }
  intros [Hs|s Hs Hp|s Hs Hp|s v t Hs Hp Ht Hage].
  - exists []. split; [done|]. rewrite Hid.
    unfold queryFn. unfold mbind at 1, M_bind at 1, getItem. by rewrite Hs.
  - destruct s as [|c r].
    + exists []. split; [done|]. rewrite Hid.
      unfold queryFn. unfold mbind at 1, M_bind at 1, getItem. by rewrite Hs.
    + exists [ConsoleError "Error parsing waitlist cache:" SyntaxError].
      split; [done|].
      unfold queryFn. unfold mbind at 1, M_bind at 1, getItem. rewrite Hs.
      unfold read_cache. unfold_M. by rewrite Hp.
  - destruct s as [|c r]; [by rewrite JSON_parse_empty in Hp|].
    exists [ConsoleError "Error parsing waitlist cache:" TypeError].
    split; [done|].
    unfold queryFn. unfold mbind at 1, M_bind at 1, getItem. rewrite Hs.
    unfold read_cache. unfold_M. by rewrite Hp.
  - destruct s as [|c r]; [by rewrite JSON_parse_empty in Hp|].
    exists []. split; [done|]. rewrite Hid.
    unfold queryFn. unfold mbind at 1, M_bind at 1, getItem. rewrite Hs.
    unfold mbind at 1, M_bind at 1, try_catch.
    rewrite (read_cache_number _ _ _ _ Hp Ht).
    destruct (Z.ltb_spec CACHE_DURATION (clock st - t)); [done|lia].
Qed.

Lemma refetch_trace x st :
  trace (refetch x st).2 = trace st ++ [Fetched "GET" "/api/waitlist/count" None].
Proof.
  unfold refetch, getWaitlistCount, fetch. unfold_M.
  destruct (reply x) as [r|status body]; [done|]. simpl.
  destruct (ok status); [|done]. simpl.
  destruct (JSON_parse body) as [data|]; [|done].
  by destruct (Get data "count").
Qed.

Lemma refetch_success x st status body data c :
  reply x = Response status body -> ok status = true ->
  JSON_parse body = Some data -> Get data "count" = Return c ->
  refetch x st
  = (Return data,
     mkState (<[LOCAL_STORAGE_KEY :=
                 JSON_stringify (cache_record c (clock st + Z.of_N (latency x)))]>
                (localStorage st))
             (clock st + Z.of_N (latency x))
             (trace st ++ [Fetched "GET" "/api/waitlist/count" None])
             (query_data st) (success st) (localSuccess st)).
Proof.
  intros Hr Hok Hp Hc.
  unfold refetch, getWaitlistCount, fetch. unfold_M.
  rewrite Hr. simpl. rewrite Hok. simpl. rewrite Hp, Hc. done.
Qed.

(** C2, with the bound of the code, which is strict. When the stored entry
    is absent, does not parse, parses to [null], or is more than the cache
    duration old, [queryFn] makes exactly one request,
    [GET /api/waitlist/count]; when that request succeeds, the count it
    brought is stored with the time of the write and the answer is
    returned. *)
Theorem stale_cache_refetches st x :
  stale st ->
  (exists log,
     trace (queryFn x st).2
     = trace st ++ log ++ [Fetched "GET" "/api/waitlist/count" None] /\
     network_calls log = 0%nat) /\
  network_calls (trace (queryFn x st).2) = S (network_calls (trace st)) /\
  forall status body data c,
    reply x = Response status body -> ok status = true ->
    JSON_parse body = Some data -> Get data "count" = Return c ->
    (queryFn x st).1 = Return data /\
    clock (queryFn x st).2 = clock st + Z.of_N (latency x) /\
    localStorage (queryFn x st).2
    = <[LOCAL_STORAGE_KEY :=
          JSON_stringify (cache_record c (clock (queryFn x st).2))]>
        (localStorage st).
Proof.
  intros Hst. destruct (stale_falls_through st x Hst) as (log & Hlog & ->).
  split; [|split].
  - exists log. rewrite refetch_trace. simpl. by rewrite app_assoc.
  - rewrite refetch_trace. simpl.
    rewrite !network_calls_app, Hlog. simpl. unfold network_calls at 2. simpl. lia.
  - intros status body data c Hr Hok Hp Hc.
    by rewrite (refetch_success _ _ _ _ _ _ Hr Hok Hp Hc).
Qed.

Lemma logged_nil st : logged st [] = st.
Proof. destruct st. unfold logged. simpl. by rewrite app_nil_r. Qed.

Lemma read_cache_pure s st : (read_cache s st).2 = st.
Proof.
  unfold read_cache. unfold_M.
  destruct (JSON_parse s) as [v|]; [|done].
  destruct (Get v "count"); [|done].
  destruct (Get v "timestamp"); [|done]. simpl.
  destruct (js_sub _ _); [|done].
  by destruct (negb _).
Qed.

(** [queryFn] either serves the stored entry and does nothing else, or goes
    on to the request, having at most logged a parse problem. *)
Lemma queryFn_cases st x :
  (exists hit, queryFn x st = (Return hit, st)) \/
  (exists log, network_calls log = 0%nat /\
               queryFn x st = refetch x (logged st log)).
Proof.
  remember (queryFn x st) as q eqn:Hq.
  unfold queryFn in Hq. unfold mbind at 1, M_bind at 1, getItem in Hq.
  destruct (localStorage st !! LOCAL_STORAGE_KEY) as [[|c r]|].
  1,3: right; exists []; rewrite logged_nil; split; [reflexivity|exact Hq].
  unfold mbind at 1, M_bind at 1 in Hq. unfold try_catch in Hq.
  pose proof (read_cache_pure (String c r) st) as Hpure.
  destruct (read_cache (String c r) st) as [[[hit|]|e] st1]; simpl in Hpure; subst st1.
  - left. by exists hit.
  - right. exists []. rewrite logged_nil. split; [reflexivity|exact Hq].
  - right. exists [ConsoleError "Error parsing waitlist cache:" e].
    split; [reflexivity|exact Hq].
Qed.

Lemma refetch_failure x st e :
  fetch_error (reply x) = Some e ->
  refetch x st = (Throw e, after_fetch x st).
Proof.
  unfold fetch_error, refetch, getWaitlistCount, fetch, after_fetch. unfold_M.
  destruct (reply x) as [r|status body]; [by intros [= <-]|]. simpl.
  destruct (ok status); [done|]. by intros [= <-].
Qed.

(** C6. When the count request fails (the network is down, or the response
    is not 2xx), the stored data is what it was, whatever [queryFn] did.  On
    a page whose stored entry cannot be served, [queryFn] makes the request
    and throws the error of that failure, which is the only error it can
    throw; and it throws it whenever a request has gone out, so that it
    returns only when it has served the stored entry and done nothing
    else. *)
Theorem fetch_failure_keeps_cache st x e :
  fetch_error (reply x) = Some e ->
  localStorage (queryFn x st).2 = localStorage st /\
  (stale st ->
   (queryFn x st).1 = Throw e /\
   network_calls (trace (queryFn x st).2) = S (network_calls (trace st))) /\
  (network_calls (trace (queryFn x st).2) <> network_calls (trace st) ->
   (queryFn x st).1 = Throw e) /\
  (forall e', (queryFn x st).1 = Throw e' -> e' = e) /\
  (forall r, (queryFn x st).1 = Return r -> queryFn x st = (Return r, st)).
Proof.
  intros He.
  assert (Hthrow : forall log, network_calls log = 0%nat ->
            queryFn x st = refetch x (logged st log) ->
            (queryFn x st).1 = Throw e /\
            network_calls (trace (queryFn x st).2) = S (network_calls (trace st))).
  { intros log Hlog ->. rewrite (refetch_failure _ _ _ He). split; [done|].
    simpl. rewrite !network_calls_app, Hlog. unfold network_calls at 2. simpl. lia. }
  destruct (queryFn_cases st x) as [[hit Hq]|(log & Hlog & Hq)].
  - split; [by rewrite Hq|]. split; [|split; [|split]].
    + intros Hst. destruct (stale_falls_through st x Hst) as (log & Hlog & Hq').
      destruct (Hthrow log Hlog Hq') as [H _]. rewrite Hq in H. discriminate.
    + rewrite Hq. simpl. congruence.
    + rewrite Hq. simpl. discriminate.
    + rewrite Hq. simpl. by intros r [= <-].
  - destruct (Hthrow log Hlog Hq) as [H1 H2].
    split; [by rewrite Hq, (refetch_failure _ _ _ He)|].
    split; [done|]. split; [done|]. split.
    + rewrite H1. by intros e' [= <-].
    + rewrite H1. discriminate.
Qed.

Lemma read_cache_hit s st hit :
  (read_cache s st).1 = Return (Some hit) ->
  exists v, JSON_parse s = Some v /\ hit = JObj [("count", GetOpt v "count")].
Proof.
  unfold read_cache. unfold_M.
  destruct (JSON_parse s) as [v|]; [|done].
  destruct v; simpl; try done; repeat case_match; try done;
    intros [= <-]; eexists; (split; [reflexivity|]); reflexivity.
Qed.

Lemma refetch_returns x st r :
  (refetch x st).1 = Return r ->
  exists status body,
    reply x = Response status body /\ ok status = true /\ JSON_parse body = Some r.
Proof.
  unfold refetch, getWaitlistCount, fetch. unfold_M.
  destruct (reply x) as [reason|status body]; simpl; [done|].
  destruct (ok status) eqn:Hok; simpl; [|done].
  destruct (JSON_parse body) as [data|] eqn:Hp; simpl; [|done].
  destruct (Get data "count"); simpl; [|done].
  intros [= <-]. exists status, body. auto.
Qed.

(** Where the value [queryFn] returns comes from, and what else has
    happened by then. *)
Lemma queryFn_origin st x r :
  (queryFn x st).1 = Return r ->
  (exists s v, localStorage st !! LOCAL_STORAGE_KEY = Some s /\
               JSON_parse s = Some v /\
               r = JObj [("count", GetOpt v "count")] /\
               queryFn x st = (Return r, st)) \/
  (exists status body, reply x = Response status body /\ ok status = true /\
               JSON_parse body = Some r /\
               network_calls (trace (queryFn x st).2)
               = S (network_calls (trace st))).
Proof.
  assert (Hfetch : forall log, network_calls log = 0%nat ->
            queryFn x st = refetch x (logged st log) ->
            (queryFn x st).1 = Return r ->
            exists status body, reply x = Response status body /\
              ok status = true /\ JSON_parse body = Some r /\
              network_calls (trace (queryFn x st).2)
              = S (network_calls (trace st))).
  { intros log Hlog -> H.
    destruct (refetch_returns _ _ _ H) as (status & body & Hx & Hok & Hb).
    exists status, body. repeat split; try done.
    rewrite refetch_trace. simpl. rewrite !network_calls_app, Hlog.
    unfold network_calls at 2. simpl. lia. }
  remember (queryFn x st) as q eqn:Hq.
  unfold queryFn in Hq. unfold mbind at 1, M_bind at 1, getItem in Hq.
  destruct (localStorage st !! LOCAL_STORAGE_KEY) as [[|c r0]|] eqn:Hs.
  1,3: intros H; right; apply (Hfetch []);
       [reflexivity|by rewrite logged_nil|exact H].
  unfold mbind at 1, M_bind at 1 in Hq. unfold try_catch in Hq.
  pose proof (read_cache_pure (String c r0) st) as Hpure.
  pose proof (read_cache_hit (String c r0) st) as Hhit.
  destruct (read_cache (String c r0) st) as [[[hit|]|e] st1];
    simpl in Hpure; subst st1.
  - subst q. intros [= <-]. destruct (Hhit hit eq_refl) as (v & Hv & ->).
    left. by exists (String c r0), v.
  - intros H. right. apply (Hfetch []); [reflexivity|by rewrite logged_nil|exact H].
  - intros H. right.
    by apply (Hfetch [ConsoleError "Error parsing waitlist cache:" e]).
Qed.

Lemma getCount_returned x st r :
  (queryFn x st).1 = Return r -> query_data (getCount x st).2 = r.
Proof.
  unfold getCount, try_catch. unfold mbind, M_bind.
  destruct (queryFn x st) as [[r'|e] st1]; simpl; [|done]. by intros [= <-].
Qed.

(** C8, as the code has it. [queryFn] passes on the count it reads without
    checking it, and the page shows that count ([0] for a missing or [null]
    one).  A stored entry whose numeric timestamp is no more than the cache
    duration old is served: the page shows its count.  When the stored entry
    cannot be served and the request is answered, the page shows the count
    of the answer.  In general, what [queryFn] returns is the [count] member
    of the stored entry, nothing else having happened, or the parsed body of
    a 2xx answer to the one request it made.  So what the page shows is a
    non-negative integer as soon as the stored entry and the response carry
    one. *)
Theorem getCount_passes_count_on st x :
  (forall s v t,
     localStorage st !! LOCAL_STORAGE_KEY = Some s -> JSON_parse s = Some v ->
     Get v "timestamp" = Return (JNum (Int t)) ->
     clock st - t <= CACHE_DURATION ->
     queryFn x st = (Return (JObj [("count", GetOpt v "count")]), st) /\
     count (getCount x st).2 = count_of v) /\
  (forall status body data c,
     stale st -> reply x = Response status body -> ok status = true ->
     JSON_parse body = Some data -> Get data "count" = Return c ->
     (queryFn x st).1 = Return data /\
     count (getCount x st).2 = count_of data) /\
  (forall r,
     (queryFn x st).1 = Return r ->
     query_data (getCount x st).2 = r /\
     count (getCount x st).2 = count_of r /\
     ((exists s v, localStorage st !! LOCAL_STORAGE_KEY = Some s /\
                   JSON_parse s = Some v /\
                   r = JObj [("count", GetOpt v "count")] /\
                   count_of r = count_of v /\
                   queryFn x st = (Return r, st)) \/
      (exists status body, reply x = Response status body /\ ok status = true /\
                   JSON_parse body = Some r /\
                   network_calls (trace (queryFn x st).2)
                   = S (network_calls (trace st)))) /\
     ((forall s v, localStorage st !! LOCAL_STORAGE_KEY = Some s ->
                   JSON_parse s = Some v -> is_nonneg_integer (count_of v) = true) ->
      (forall status body v, reply x = Response status body ->
                   JSON_parse body = Some v -> is_nonneg_integer (count_of v) = true) ->
      is_nonneg_integer (count (getCount x st).2) = true)).
Proof.
  assert (Hshown : forall r, (queryFn x st).1 = Return r ->
                             count (getCount x st).2 = count_of r).
  { intros r Hr. unfold count. by rewrite (getCount_returned _ _ _ Hr). }
  split; [|split].
  - intros s v t Hs Hv Ht Hage.
    pose proof (fresh_cache_served_at st x s v t Hs Hv Ht Hage) as Hq.
    split; [exact Hq|]. rewrite (Hshown (JObj [("count", GetOpt v "count")])).
    + reflexivity.
    + by rewrite Hq.
  - intros status body data c Hst Hx Hok Hb Hc.
    destruct (stale_falls_through st x Hst) as (log & _ & Hq).
    assert (Hr : (queryFn x st).1 = Return data)
      by (by rewrite Hq, (refetch_success _ _ _ _ _ _ Hx Hok Hb Hc)).
    split; [exact Hr|by apply Hshown].
  - intros r Hr.
    split; [by apply getCount_returned|]. split; [by apply Hshown|]. split.
    + destruct (queryFn_origin _ _ _ Hr) as [(s & v & Hs & Hv & -> & Hq)|Hfetched].
      * left. by exists s, v.
      * by right.
    + intros Hstored Hserved. rewrite (Hshown r Hr).
      destruct (queryFn_origin _ _ _ Hr)
        as [(s & v & Hs & Hv & -> & _)|(status & body & Hx & _ & Hb & _)].
      * by apply (Hstored s v).
      * by apply (Hserved status body r).
Qed.

(** C7. A stored value that parses but is no [{count, timestamp}] record is
    not taken for a miss: with no timestamp, [Date.now() - timestamp] is
    [NaN], the expiry test is false, and the value is served whatever the
    time, without a log line and without a request.  So it is with [{}],
    which yields an undefined count, and with [{"count":42}], which yields
    42 for ever. *)
Theorem timestampless_entry_served (m : gmap string string) now tr d s l x :
  queryFn x (mkState (<[LOCAL_STORAGE_KEY := "{}"]> m) now tr d s l)
  = (Return (JObj [("count", JUndefined)]),
     mkState (<[LOCAL_STORAGE_KEY := "{}"]> m) now tr d s l) /\
  queryFn x (mkState (<[LOCAL_STORAGE_KEY :=
                         JSON_stringify (JObj [("count", JNum (Int 42))])]> m)
                     now tr d s l)
  = (Return (JObj [("count", JNum (Int 42))]),
     mkState (<[LOCAL_STORAGE_KEY :=
                  JSON_stringify (JObj [("count", JNum (Int 42))])]> m)
             now tr d s l).
Proof.
  split.
  - unfold queryFn. unfold mbind at 1, M_bind at 1, getItem.
    cbn [localStorage]. rewrite lookup_insert_eq. reflexivity.
  - unfold queryFn. unfold mbind at 1, M_bind at 1, getItem.
    cbn [localStorage]. rewrite lookup_insert_eq. reflexivity.
Qed.

(** ** Submitting *)

Lemma joinWaitlist_state x email st :
  (joinWaitlist x email st).2 = posted x email st.
Proof.
  unfold joinWaitlist, fetch, posted, join_request. unfold_M.
  destruct (reply x) as [reason|status body]; simpl; [done|].
  destruct (ok status); simpl; [done|].
  destruct (JSON_parse body) as [v|]; simpl.
  - destruct (Get v "error"); simpl; [|done]. by destruct (ToString _).
  - done.
Qed.

Lemma joinWaitlist_ok x email st :
  join_ok x = true -> joinWaitlist x email st = (Return tt, posted x email st).
Proof.
  intros Hok. rewrite <- joinWaitlist_state.
  unfold join_ok in Hok. unfold joinWaitlist, fetch. unfold_M.
  destruct (reply x) as [reason|status body]; simpl; [done|].
  by rewrite Hok.
Qed.

Lemma joinWaitlist_fails x email st :
  join_ok x = false ->
  exists e, joinWaitlist x email st = (Throw e, posted x email st).
Proof.
  intros Hok. rewrite <- joinWaitlist_state.
  unfold join_ok in Hok. unfold joinWaitlist, fetch. unfold_M.
  destruct (reply x) as [reason|status body]; simpl; [by eexists|].
  rewrite Hok. simpl.
  destruct (JSON_parse body) as [v|]; simpl.
  - destruct (Get v "error"); simpl; [|by eexists].
    destruct (ToString _); by eexists.
  - by eexists.
Qed.

Lemma submit_failed x email st e :
  joinWaitlist x email st = (Throw e, posted x email st) ->
  submit x email st = logged (posted x email st) [ToastError (message_of e)].
Proof.
  intros Hj. unfold submit, mutate, try_catch.
  unfold mbind, M_bind. rewrite Hj. unfold onError, emit, logged.
  destruct e; simpl; by rewrite Bool.eqb_reflx.
Qed.

(** C4. A submission that fails leaves everything as it was: the stored
    data (count entry and success flag alike), the count on display and the
    component state.  All that happens is the request and one error toast. *)
Theorem submit_failure_atomic st x email :
  join_ok x = false ->
  let st' := submit x email st in
  localStorage st' = localStorage st /\
  count st' = count st /\
  query_data st' = query_data st /\
  success st' = success st /\
  localSuccess st' = localSuccess st /\
  exists msg, trace st' = trace st ++ [join_request email; ToastError msg].
Proof.
  intros Hok st'. subst st'.
  destruct (joinWaitlist_fails x email st Hok) as [e He].
  rewrite (submit_failed _ _ _ _ He). unfold logged, posted, count. simpl.
  repeat split. exists (message_of e). by rewrite <- app_assoc.
Qed.

(** [JSON.parse] never yields [undefined]. *)
Lemma complete_defined v stack st' stack' w :
  v <> JUndefined ->
  complete v stack = Some (st', stack') -> st' = PDone w -> w <> JUndefined.
Proof.
  intros Hv. destruct stack as [|[d|d|d key] k]; simpl; intros [= <- <-]; congruence.
Qed.

Lemma parse_step_defined st stack t st' stack' w :
  parse_step st stack t = Some (st', stack') -> st' = PDone w -> w <> JUndefined.
Proof.
  intros Hs Hd.
  destruct st, t; simpl in Hs; try discriminate;
    repeat match type of Hs with
           | context [match ?s with _ => _ end] => destruct s; try discriminate
           end;
    first [ eapply complete_defined; [|exact Hs|exact Hd]; discriminate
          | injection Hs as <- <-; discriminate ].
Qed.

Lemma parse_tokens_defined ts : forall st stack,
  (forall w, st = PDone w -> w <> JUndefined) ->
  parse_tokens st stack ts <> Some JUndefined.
Proof.
  induction ts as [|t ts IH]; intros st stack Hst; simpl.
  - destruct st; try discriminate. intros [= ->]. by eapply Hst.
  - destruct (parse_step st stack t) as [[st' stack']|] eqn:E; [|discriminate].
    apply IH. intros w Hw. eapply parse_step_defined; eauto.
Qed.

Lemma JSON_parse_defined s : JSON_parse s <> Some JUndefined.
Proof.
  unfold JSON_parse. destruct (lex LIdle s); [|discriminate].
  apply parse_tokens_defined. discriminate.
Qed.

Lemma joinWaitlist_reason x email st status body v s :
  reply x = Response status body -> ok status = false ->
  JSON_parse body = Some v -> GetOpt v "error" = JStr s -> s <> EmptyString ->
  joinWaitlist x email st = (Throw (Error_ s), posted x email st).
Proof.
  intros Hr Hok Hp Hg Hs. rewrite <- joinWaitlist_state.
  unfold joinWaitlist, fetch. unfold_M. rewrite Hr. simpl. rewrite Hok. simpl.
  rewrite Hp. simpl.
  destruct v; simpl in *; try discriminate.
  rewrite Hg. unfold js_or. destruct s; [done|]. reflexivity.
Qed.

Lemma joinWaitlist_generic x email st status body :
  reply x = Response status body -> ok status = false ->
  (JSON_parse body = None \/
   exists v, JSON_parse body = Some v /\ v <> JNull /\
             ToBoolean (GetOpt v "error") = false) ->
  joinWaitlist x email st = (Throw (Error_ GENERIC_JOIN_ERROR), posted x email st).
Proof.
  intros Hr Hok Hb. rewrite <- joinWaitlist_state.
  unfold joinWaitlist, fetch. unfold_M. rewrite Hr. simpl. rewrite Hok. simpl.
  destruct Hb as [Hp|(v & Hp & Hnull & Hfalsy)]; rewrite Hp; simpl; [done|].
  assert (Get v "error" = Return (GetOpt v "error")) as ->.
  { destruct v; try done. by destruct (JSON_parse_defined body). }
  unfold js_or. rewrite Hfalsy. reflexivity.
Qed.

(** C5, with the fallback of the code, which takes over on any falsy reason.
    After a non-2xx answer the toast shows the [error] member of the body
    when that is a non-empty string, and the generic text when the body does
    not parse or, being other than [null], has no [error] member or a falsy
    one, the empty string included. *)
Theorem join_failure_notification st x email status body :
  reply x = Response status body -> ok status = false ->
  (forall v s,
     JSON_parse body = Some v -> GetOpt v "error" = JStr s -> s <> EmptyString ->
     trace (submit x email st)
     = trace st ++ [join_request email; ToastError (Literal s)]) /\
  (JSON_parse body = None \/
   (exists v, JSON_parse body = Some v /\ v <> JNull /\
              ToBoolean (GetOpt v "error") = false) ->
   trace (submit x email st)
   = trace st ++ [join_request email; ToastError (Literal GENERIC_JOIN_ERROR)]).
Proof.
  intros Hr Hok. split.
  - intros v s Hp Hg Hs.
    rewrite (submit_failed _ _ _ _ (joinWaitlist_reason _ _ _ _ _ _ _ Hr Hok Hp Hg Hs)).
    simpl. by rewrite <- app_assoc.
  - intros Hb.
    rewrite (submit_failed _ _ _ _ (joinWaitlist_generic _ _ _ _ _ Hr Hok Hb)).
    simpl. by rewrite <- app_assoc.
Qed.

(** ** A submission that goes through *)

Lemma submit_succeeded x email st n :
  join_ok x = true ->
  count st = JNum (Int n) ->
  (mutate x email st)
  = (Return tt,
     mkState (<[LOCAL_STORAGE_KEY :=
                 JSON_stringify (cache_record (JNum (Int (n + 1)))
                                              (clock st + Z.of_N (latency x)))]>
                (localStorage st))
             (clock st + Z.of_N (latency x))
             (trace st ++ [join_request email; Confetti;
                           ToastSuccess "You're on the waitlist! 🎉"])
             (JObj [("count", JNum (Int (n + 1)))]) true (localSuccess st)).
Proof.
  intros Hok Hn. unfold mutate, try_catch.
  unfold mbind at 1, M_bind at 1. rewrite (joinWaitlist_ok _ _ _ Hok).
  unfold onSuccess. unfold_M. unfold posted. cbn [query_data].
  unfold count in Hn. rewrite Hn. simpl. by rewrite <- !app_assoc.
Qed.

(** C1, for a page that shows a number. A submission that goes through
    while the page shows the integer [n], of a magnitude up to which the
    doubles of the code add exactly as the model does, makes it show
    [n + 1]; that count is written to the cache entry with the time of the
    write, in a form that reads back as written, and nothing is asked of
    the server but the join itself.  The success flag is stored as [true],
    so whatever is done afterwards, a reload comes up in the submitted
    state.  (The count need not be a number: the page shows what the cache
    or the server gave it, and [+ 1] on a text appends a character.) *)
Theorem submit_success_increments st x email n :
  join_ok x = true ->
  count st = JNum (Int n) ->
  - MAX_SAFE_INTEGER <= n <= MAX_SAFE_INTEGER ->
  (success st = true -> flag_set (localStorage st)) ->
  let st' := submit x email st in
  let entry := cache_record (JNum (Int (n + 1))) (clock st') in
  count st' = JNum (Int (n + 1)) /\
  clock st' = clock st + Z.of_N (latency x) /\
  localStorage st' !! LOCAL_STORAGE_KEY = Some (JSON_stringify entry) /\
  JSON_parse (JSON_stringify entry) = Some entry /\
  trace st' = trace st ++ [join_request email; Confetti;
                           ToastSuccess "You're on the waitlist! 🎉"] /\
  flag_set (localStorage st') /\
  forall ops, localSuccess (load (run ops st')) = true.
Proof.
  intros Hok Hn _ Hflag st' entry.
  assert (Hst' : count st' = JNum (Int (n + 1)) /\
                 clock st' = clock st + Z.of_N (latency x) /\
                 localStorage st' !! LOCAL_STORAGE_KEY = Some (JSON_stringify entry) /\
                 trace st' = trace st ++ [join_request email; Confetti;
                                          ToastSuccess "You're on the waitlist! 🎉"] /\
                 flag_set (localStorage st')).
  { subst entry st'. unfold submit. rewrite (submit_succeeded _ _ _ _ Hok Hn).
    cbn [snd success]. destruct (success st) eqn:Hs; cbn [Bool.eqb].
    - cbn. repeat split; try by rewrite lookup_insert_eq.
      unfold flag_set. rewrite lookup_insert_ne by done. by apply Hflag.
    - unfold useEffect_body. unfold_M. cbn. unfold flag_set.
      repeat split; try by rewrite lookup_insert_eq.
      rewrite lookup_insert_ne by done. by rewrite lookup_insert_eq. }
  destruct Hst' as (H1 & H2 & H3 & H4 & H5).
  repeat split; try done.
  - apply cache_record_roundtrip.
  - intros ops. by apply load_reads_flag, flag_set_stable.
Qed.

(** ** Nothing to show yet *)

Lemma refetch_query_data x st : query_data (refetch x st).2 = query_data st.
Proof.
  unfold refetch, getWaitlistCount, fetch. unfold_M.
  destruct (reply x) as [r|status body]; [done|]. simpl.
  destruct (ok status); [|done]. simpl.
  destruct (JSON_parse body) as [data|]; [|done].
  by destruct (Get data "count").
Qed.

Lemma queryFn_query_data x st : query_data (queryFn x st).2 = query_data st.
Proof.
  destruct (queryFn_cases st x) as [[hit ->]|(log & _ & ->)]; [done|].
  by rewrite refetch_query_data.
Qed.

Lemma getCount_failed x st e :
  (queryFn x st).1 = Throw e -> query_data (getCount x st).2 = query_data st.
Proof.
  intros H. pose proof (queryFn_query_data x st) as Hq.
  unfold getCount, try_catch. unfold mbind, M_bind.
  destruct (queryFn x st) as [[r|e'] st1]; simpl in *; [done|]. exact Hq.
Qed.

Lemma useEffect_body_count st :
  query_data (useEffect_body st).2 = query_data st /\
  clock (useEffect_body st).2 = clock st /\
  localStorage (useEffect_body st).2 !! LOCAL_STORAGE_KEY
  = localStorage st !! LOCAL_STORAGE_KEY.
Proof.
  unfold useEffect_body. unfold_M. destruct (success st); simpl.
  - by rewrite lookup_insert_ne.
  - by case_match.
Qed.

(** C10. While there is no count data (the page has just loaded, or the
    count query has failed) the page shows 0, and a submission that goes
    through then makes the shown and the cached count 1. *)
Theorem no_data_shows_zero st :
  query_data st = JUndefined ->
  count st = JNum (Int 0) /\
  (forall x e, (queryFn x st).1 = Throw e ->
               count (getCount x st).2 = JNum (Int 0)) /\
  (forall x email,
     join_ok x = true ->
     count (submit x email st) = JNum (Int 1) /\
     localStorage (submit x email st) !! LOCAL_STORAGE_KEY
     = Some (JSON_stringify
               (cache_record (JNum (Int 1)) (clock (submit x email st))))).
Proof.
  intros Hd.
  assert (H0 : count st = JNum (Int 0)) by (unfold count; by rewrite Hd).
  split; [done|]. split.
  - intros x e He. unfold count. by rewrite (getCount_failed _ _ _ He), Hd.
  - intros x email Hok. unfold submit.
    rewrite (submit_succeeded _ _ _ _ Hok H0). cbn [snd success].
    case_match.
    + cbn. by rewrite lookup_insert_eq.
    + match goal with
      | |- context [useEffect_body ?s] =>
          destruct (useEffect_body_count s) as (Hq & Hc & Hl)
      end.
      unfold count. rewrite Hq, Hc, Hl. cbn. by rewrite lookup_insert_eq.
Qed.

Lemma load_no_data st : query_data (load st) = JUndefined.
Proof.
  unfold load.
  match goal with
  | |- context [useEffect_body ?s] =>
      destruct (useEffect_body_count s) as (Hq & _ & _)
  end.
  by rewrite Hq.
Qed.

(** ** The theorems at work on concrete pages *)

(** The cache holds count 42 written at 1000; at 2000 it is served. *)
Lemma fresh_cache_served_witness :
  queryFn offline (cached_page 42 1000 2000)
  = (Return (JObj [("count", JNum (Int 42))]), cached_page 42 1000 2000) /\
  network_calls (trace (queryFn offline (cached_page 42 1000 2000)).2)
  = network_calls (trace (cached_page 42 1000 2000)).
Proof.
  apply (fresh_cache_served (cached_page 42 1000 2000) offline
           (JSON_stringify (cache_record (JNum (Int 42)) 1000))
           (cache_record (JNum (Int 42)) 1000) 1000).
  - vm_compute; reflexivity.
  - vm_compute; reflexivity.
  - reflexivity.
  - vm_compute; reflexivity.
Defined.

(** Nothing is stored: one request, and its answer is stored and returned.
    What is stored is not JSON: one request again, after a log line. *)
Lemma stale_cache_refetches_witness :
  (stale fresh_page /\
   network_calls (trace (queryFn (count_reply 42) fresh_page).2)
   = S (network_calls (trace fresh_page)) /\
   (queryFn (count_reply 42) fresh_page).1 = Return (JObj [("count", JNum (Int 42))]) /\
   localStorage (queryFn (count_reply 42) fresh_page).2
   = <[LOCAL_STORAGE_KEY := JSON_stringify (cache_record (JNum (Int 42)) 1005)]>
       (localStorage fresh_page)) /\
  (stale (stored_page "{count: 42}" 2000) /\
   network_calls (trace (queryFn (count_reply 42) (stored_page "{count: 42}" 2000)).2)
   = 1%nat /\
   (queryFn (count_reply 42) (stored_page "{count: 42}" 2000)).1
   = Return (JObj [("count", JNum (Int 42))])).
Proof.
  split.
  - assert (Hs : stale fresh_page) by (apply stale_absent; vm_compute; reflexivity).
    split; [exact Hs|].
    destruct (stale_cache_refetches fresh_page (count_reply 42) Hs) as (_ & Hn & Hok).
    split; [exact Hn|].
    destruct (Hok 200 (JSON_stringify (JObj [("count", JNum (Int 42))]))
                (JObj [("count", JNum (Int 42))]) (JNum (Int 42)))
      as (Hr & Hc & Hl); try (vm_compute; reflexivity).
    split; [exact Hr|]. rewrite Hl, Hc. reflexivity.
  - assert (Hs : stale (stored_page "{count: 42}" 2000)).
    { apply (stale_unreadable _ "{count: 42}"); vm_compute; reflexivity. }
    split; [exact Hs|].
    destruct (stale_cache_refetches _ (count_reply 42) Hs) as (_ & Hn & Hok).
    split; [exact Hn|].
    assert (Hp : JSON_parse (JSON_stringify (JObj [("count", JNum (Int 42))]))
                 = Some (JObj [("count", JNum (Int 42))]))
      by (vm_compute; reflexivity).
    exact (proj1 (Hok 200 _ _ (JNum (Int 42)) eq_refl eq_refl Hp eq_refl)).
Defined.

(** A stored [1.5] is JSON: it is served, with no count, and no request is
    made.  A stored entry with the count [-1.5] shows as [-1.5]. *)
Example fractional_entry_is_served :
  queryFn (count_reply 42) (stored_page "1.5" 2000)
  = (Return (JObj [("count", JUndefined)]), stored_page "1.5" 2000) /\
  count (getCount offline
           (stored_page (JSON_stringify (cache_record (JNum (Dec (-15) 1)) 1000)) 2000)).2
  = JNum (Dec (-15) 1).
Proof. split; vm_compute; reflexivity. Qed.

(** The entry is exactly as old as the cache duration, [now - timestamp >=
    TTL] holds, and yet it is served without a request. *)
Lemma expiry_boundary_counterexample :
  JSON_parse (JSON_stringify (cache_record (JNum (Int 42)) 1000))
  = Some (cache_record (JNum (Int 42)) 1000) /\
  clock (cached_page 42 1000 (1000 + CACHE_DURATION)) - 1000 >= CACHE_DURATION /\
  network_calls
    (trace (queryFn (count_reply 43) (cached_page 42 1000 (1000 + CACHE_DURATION))).2)
  = 0%nat.
Proof. split; [|split]; vm_compute; first [reflexivity | discriminate]. Qed.

(** The network is down and nothing is stored: the error comes out and the
    store stays empty.  The server fails while the entry for 42 has expired:
    the error comes out and the entry is still there. *)
Lemma fetch_failure_keeps_cache_witness :
  ((queryFn offline fresh_page).1 = Throw (NetworkFailure "Failed to fetch") /\
   network_calls (trace (queryFn offline fresh_page).2) = 1%nat /\
   localStorage (queryFn offline fresh_page).2 = ∅) /\
  ((queryFn unavailable (cached_page 42 1000 (1001 + CACHE_DURATION))).1
   = Throw (Error_ "Failed to get waitlist count") /\
   localStorage (queryFn unavailable (cached_page 42 1000 (1001 + CACHE_DURATION))).2
   = {[ LOCAL_STORAGE_KEY := JSON_stringify (cache_record (JNum (Int 42)) 1000) ]}).
Proof.
  split.
  - destruct (fetch_failure_keeps_cache fresh_page offline
                (NetworkFailure "Failed to fetch") eq_refl) as (Hl & Hs & _).
    destruct Hs as [He Hn]; [apply stale_absent; reflexivity|].
    split; [exact He|]. split; [exact Hn|exact Hl].
  - destruct (fetch_failure_keeps_cache (cached_page 42 1000 (1001 + CACHE_DURATION))
                unavailable (Error_ "Failed to get waitlist count") eq_refl)
      as (Hl & Hs & _).
    destruct Hs as [He _].
    + apply (stale_expired _ (JSON_stringify (cache_record (JNum (Int 42)) 1000))
               (cache_record (JNum (Int 42)) 1000) 1000).
      * vm_compute; reflexivity.
      * vm_compute; reflexivity.
      * reflexivity.
      * vm_compute; reflexivity.
    + split; [exact He|exact Hl].
Defined.

(** A stored count of -5 in a fresh entry is what the page shows. *)
Lemma negative_count_counterexample :
  queryFn offline (cached_page (-5) 1000 2000)
  = (Return (JObj [("count", JNum (Int (-5)))]), cached_page (-5) 1000 2000) /\
  count (getCount offline (cached_page (-5) 1000 2000)).2 = JNum (Int (-5)) /\
  is_nonneg_integer (JNum (Int (-5))) = false.
Proof. split; [|split]; vm_compute; reflexivity. Qed.

(** The cache holds count 42 written at 1000 and the network is down: at
    2000 the page shows 42, read from the entry.  Nothing is stored and the
    server answers 7: the page shows 7, read from the response. *)
Lemma getCount_passes_count_on_witness :
  (queryFn offline (cached_page 42 1000 2000)
   = (Return (JObj [("count", JNum (Int 42))]), cached_page 42 1000 2000) /\
   count (getCount offline (cached_page 42 1000 2000)).2 = JNum (Int 42) /\
   is_nonneg_integer (count (getCount offline (cached_page 42 1000 2000)).2) = true) /\
  ((queryFn (count_reply 7) fresh_page).1 = Return (JObj [("count", JNum (Int 7))]) /\
   count (getCount (count_reply 7) fresh_page).2 = JNum (Int 7) /\
   is_nonneg_integer (count (getCount (count_reply 7) fresh_page).2) = true).
Proof.
  split.
  - destruct (getCount_passes_count_on (cached_page 42 1000 2000) offline)
      as (Hfresh & _ & Hgen).
    destruct (Hfresh (JSON_stringify (cache_record (JNum (Int 42)) 1000))
                (cache_record (JNum (Int 42)) 1000) 1000) as (Hq & Hc).
    + vm_compute; reflexivity.
    + vm_compute; reflexivity.
    + reflexivity.
    + vm_compute. discriminate.
    + split; [exact Hq|]. split; [exact Hc|].
      destruct (Hgen (JObj [("count", JNum (Int 42))])) as (_ & _ & _ & Hnn).
      * by rewrite Hq.
      * apply Hnn.
        -- intros s v Hs Hv. vm_compute in Hs. injection Hs as <-.
           vm_compute in Hv. injection Hv as <-. reflexivity.
        -- intros status body v Hx. discriminate.
  - destruct (getCount_passes_count_on fresh_page (count_reply 7))
      as (_ & Hfetched & Hgen).
    assert (Hp : JSON_parse (JSON_stringify (JObj [("count", JNum (Int 7))]))
                 = Some (JObj [("count", JNum (Int 7))]))
      by (vm_compute; reflexivity).
    destruct (Hfetched 200 _ _ (JNum (Int 7)) (stale_absent fresh_page eq_refl)
                eq_refl eq_refl Hp eq_refl) as (Hr & Hc).
    split; [exact Hr|]. split; [exact Hc|].
    destruct (Hgen _ Hr) as (_ & _ & _ & Hnn).
    apply Hnn.
    + intros s v Hs. vm_compute in Hs. discriminate.
    + intros status body v [= <- <-] Hv. rewrite Hp in Hv.
      injection Hv as <-. reflexivity.
Defined.

(** The server refuses with [{error: "already joined"}], with
    [{error: "already joined", retryAfter: 1.5}], and with a text that is
    not JSON. *)
Lemma join_failure_notification_witness :
  trace (submit (rejected (JSON_stringify (JObj [("error", JStr "already joined")])))
                "a@b.com" fresh_page)
  = trace fresh_page ++ [join_request "a@b.com"; ToastError (Literal "already joined")] /\
  trace (submit (rejected retry_later) "a@b.com" fresh_page)
  = trace fresh_page ++ [join_request "a@b.com"; ToastError (Literal "already joined")] /\
  trace (submit (rejected "Bad Request") "a@b.com" fresh_page)
  = trace fresh_page ++ [join_request "a@b.com"; ToastError (Literal GENERIC_JOIN_ERROR)].
Proof.
  split; [|split].
  - eapply (proj1 (join_failure_notification fresh_page
                     (rejected (JSON_stringify (JObj [("error", JStr "already joined")])))
                     "a@b.com" 400 _ eq_refl eq_refl)).
    + vm_compute; reflexivity.
    + reflexivity.
    + discriminate.
  - eapply (proj1 (join_failure_notification fresh_page (rejected retry_later)
                     "a@b.com" 400 _ eq_refl eq_refl)).
    + vm_compute; reflexivity.
    + reflexivity.
    + discriminate.
  - apply (proj2 (join_failure_notification fresh_page (rejected "Bad Request")
                    "a@b.com" 400 _ eq_refl eq_refl)).
    left. vm_compute; reflexivity.
Defined.

(** The server refuses with [{error: ""}]: the body has an [error] string,
    and the toast is not that string but the generic text. *)
Lemma empty_reason_counterexample :
  JSON_parse (JSON_stringify (JObj [("error", JStr EmptyString)]))
  = Some (JObj [("error", JStr EmptyString)]) /\
  ok 400 = false /\
  trace (submit (rejected (JSON_stringify (JObj [("error", JStr EmptyString)])))
                "a@b.com" fresh_page)
  = [join_request "a@b.com"; ToastError (Literal "Failed to join waitlist")] /\
  trace (submit (rejected (JSON_stringify (JObj [("error", JStr EmptyString)])))
                "a@b.com" fresh_page)
  <> [join_request "a@b.com"; ToastError (Literal EmptyString)].
Proof. repeat split; vm_compute; first [reflexivity | discriminate]. Qed.

Lemma submit_failure_atomic_witness :
  join_ok offline = false /\
  localStorage (submit offline "a@b.com" (cached_page 42 1000 2000))
  = localStorage (cached_page 42 1000 2000) /\
  count (submit offline "a@b.com" (cached_page 42 1000 2000))
  = count (cached_page 42 1000 2000) /\
  success (submit offline "a@b.com" (cached_page 42 1000 2000)) = false /\
  localSuccess (submit offline "a@b.com" (cached_page 42 1000 2000)) = false.
Proof.
  split; [reflexivity|].
  destruct (submit_failure_atomic (cached_page 42 1000 2000) offline "a@b.com" eq_refl)
    as (H1 & H2 & _ & H4 & H5 & _).
  repeat split; assumption.
Defined.

(** The page shows 42 (fetched), the join goes through: it shows 43. *)
Lemma submit_success_increments_witness :
  join_ok joined = true /\
  count (getCount (count_reply 42) fresh_page).2 = JNum (Int 42) /\
  count (submit joined "a@b.com" (getCount (count_reply 42) fresh_page).2)
  = JNum (Int 43) /\
  localStorage (submit joined "a@b.com" (getCount (count_reply 42) fresh_page).2)
    !! LOCAL_STORAGE_KEY
  = Some (JSON_stringify (cache_record (JNum (Int 43)) 1010)) /\
  flag_set (localStorage (submit joined "a@b.com" (getCount (count_reply 42) fresh_page).2)) /\
  localSuccess
    (load (run [GetCount offline]
             (submit joined "a@b.com" (getCount (count_reply 42) fresh_page).2)))
  = true.
Proof.
  split; [reflexivity|].
  assert (Hc : count (getCount (count_reply 42) fresh_page).2 = JNum (Int 42))
    by (vm_compute; reflexivity).
  split; [exact Hc|].
  destruct (submit_success_increments (getCount (count_reply 42) fresh_page).2
              joined "a@b.com" 42 eq_refl Hc)
    as (H1 & H2 & H3 & _ & _ & H5 & H6).
  - vm_compute. split; discriminate.
  - vm_compute. discriminate.
  - split; [exact H1|]. split; [|split; [exact H5|apply H6]].
    rewrite H3, H2. reflexivity.
Defined.

(** The page shows the text ["5"], which it read from a cache entry that
    nothing validated; the join goes through, and what it shows and stores
    then is not 6 but the text ["51"]. *)
Lemma text_count_counterexample :
  localStorage (stored_page text_count_entry 2000) !! LOCAL_STORAGE_KEY
  = Some text_count_entry /\
  JSON_parse text_count_entry = Some (cache_record (JStr "5") 1000) /\
  count text_count_page = JStr "5" /\
  join_ok joined = true /\
  count (submit joined "a@b.com" text_count_page) = JStr "51" /\
  localStorage (submit joined "a@b.com" text_count_page) !! LOCAL_STORAGE_KEY
  = Some (JSON_stringify (cache_record (JStr "51") 2005)) /\
  trace (submit joined "a@b.com" text_count_page)
  = [join_request "a@b.com"; Confetti; ToastSuccess "You're on the waitlist! 🎉"].
Proof. repeat split; vm_compute; reflexivity. Qed.

Lemma success_flag_persists_witness :
  flag_set (localStorage (submit joined "a@b.com" fresh_page)) /\
  flag_set (localStorage
              (run [Load; GetCount offline; Submit offline "c@d.com"]
                   (submit joined "a@b.com" fresh_page))) /\
  localSuccess
    (load (run [Load; GetCount offline; Submit offline "c@d.com"]
               (submit joined "a@b.com" fresh_page))) = true.
Proof.
  assert (H : flag_set (localStorage (submit joined "a@b.com" fresh_page)))
    by (vm_compute; reflexivity).
  split; [exact H|].
  destruct (success_flag_persists (submit joined "a@b.com" fresh_page)
              [Load; GetCount offline; Submit offline "c@d.com"] H) as (H1 & H2 & _).
  split; assumption.
Defined.

Lemma no_data_shows_zero_witness :
  query_data (load fresh_page) = JUndefined /\
  count (load fresh_page) = JNum (Int 0) /\
  count (getCount offline (load fresh_page)).2 = JNum (Int 0) /\
  count (submit joined "a@b.com" (load fresh_page)) = JNum (Int 1).
Proof.
  assert (H : query_data (load fresh_page) = JUndefined) by apply load_no_data.
  split; [exact H|].
  destruct (no_data_shows_zero (load fresh_page) H) as (H0 & Hf & Hs).
  split; [exact H0|]. split.
  - apply (Hf offline (NetworkFailure "Failed to fetch")). vm_compute; reflexivity.
  - apply (Hs joined "a@b.com"). reflexivity.
Defined.

(** * Further properties of the code *)

(** ** The join request *)

(** A character escaped by [JSON.stringify] is read back by the scanner as
    that character. *)
Lemma lex_run_escape c seen :
  lex_run (LString seen) (escape c) = Some (LString (String c seen), []).
Proof. destruct c as [[] [] [] [] [] [] [] []]; reflexivity. Qed.

Lemma lex_quote_body s : forall seen rest,
  lex (LString seen) (quote_body s +:+ rest) = lex (LString (rev_app s seen)) rest.
Proof.
  induction s as [|c s IH]; intros seen rest; [reflexivity|].
  cbn [quote_body rev_app]. rewrite append_assoc, lex_app, lex_run_escape, IH.
  generalize (lex (LString (rev_app s (String c seen))) rest).
  intros [ts|]; reflexivity.
Qed.

(** Scanning a string literal as [JSON.stringify] prints it. *)
Lemma lex_quoted s rest :
  lex LIdle (quote s +:+ rest)
  = match lex LIdle rest with
    | Some ts => Some (TString s :: ts)
    | None => None
    end.
Proof.
  unfold quote.
  change (String dquote (quote_body s +:+ String dquote EmptyString) +:+ rest)
    with (String dquote ((quote_body s +:+ String dquote EmptyString) +:+ rest)).
  rewrite append_assoc.
  change (String dquote EmptyString +:+ rest) with (String dquote rest).
  cbn [lex]. change (lex_step LIdle dquote) with (Some (LString EmptyString, @nil Token)).
  cbn iota beta. rewrite lex_quote_body.
  cbn [lex]. change (lex_step (LString (rev_app s EmptyString)) dquote)
    with (Some (LIdle, [TString (rev_string (rev_app s EmptyString))])).
  cbn iota beta.
  change (rev_app s EmptyString) with (rev_string s).
  rewrite rev_string_involutive.
  generalize (lex LIdle rest). intros [ts|]; reflexivity.
Qed.

Lemma email_payload_text email :
  JSON_stringify (JObj [("email", JStr email)])
  = ("{" +:+ quote "email" +:+ ":") +:+ quote email +:+ "}".
Proof.
  unfold JSON_stringify. cbn -[quote escape].
  rewrite ?append_assoc. cbn -[quote escape]. rewrite ?append_assoc.
  reflexivity.
Qed.

(** X1. The one request [joinWaitlist] makes is a POST to
    [/api/waitlist/join] whose body is JSON text that reads back as an
    object with the single member [email], holding the address character
    for character, whatever characters it is made of. *)
Theorem join_request_carries_email st x email :
  exists body,
    trace (joinWaitlist x email st).2
    = trace st ++ [Fetched "POST" "/api/waitlist/join" (Some body)] /\
    JSON_parse body = Some (JObj [("email", JStr email)]).
Proof.
  exists (JSON_stringify (JObj [("email", JStr email)])). split.
  - by rewrite joinWaitlist_state.
  - unfold JSON_parse. rewrite email_payload_text, lex_app.
    replace (lex_run LIdle ("{" +:+ quote "email" +:+ ":"))
      with (Some (LIdle, [TLBrace; TString "email"; TColon]))
      by (vm_compute; reflexivity).
    rewrite lex_quoted. reflexivity.
Qed.

(** ** The three ways a submission can go *)

Lemma mutate_accepted x email st :
  join_ok x = true ->
  mutate x email st
  = match js_add (count st) (JNum (Int 1)) with
    | Return newCount =>
        (Return tt,
         mkState (<[LOCAL_STORAGE_KEY :=
                     JSON_stringify
                       (cache_record newCount (clock st + Z.of_N (latency x)))]>
                    (localStorage st))
                 (clock st + Z.of_N (latency x))
                 (trace st ++ [join_request email; Confetti;
                               ToastSuccess "You're on the waitlist! 🎉"])
                 (JObj [("count", newCount)]) true (localSuccess st))
    | Throw e =>
        (Return tt,
         mkState (localStorage st) (clock st + Z.of_N (latency x))
                 (trace st ++ [join_request email; ToastError (message_of e)])
                 (query_data st) true (localSuccess st))
    end.
Proof.
  intros Hok. unfold mutate, try_catch.
  unfold mbind at 1, M_bind at 1. rewrite (joinWaitlist_ok _ _ _ Hok).
  unfold onSuccess. unfold_M. unfold posted. cbn [query_data].
  fold (count st). destruct (js_add (count st) (JNum (Int 1))) as [newCount|e].
  - simpl. by rewrite <- ?app_assoc.
  - unfold onError, emit. destruct e; simpl; by rewrite <- ?app_assoc.
Qed.

Lemma mutate_cases x email st :
  (join_ok x = false /\
   exists e,
     mutate x email st
     = (Return tt, logged (posted x email st) [ToastError (message_of e)]))
  \/ (join_ok x = true /\
      exists e,
        js_add (count st) (JNum (Int 1)) = Throw e /\
        mutate x email st
        = (Return tt,
           mkState (localStorage st) (clock st + Z.of_N (latency x))
                   (trace st ++ [join_request email; ToastError (message_of e)])
                   (query_data st) true (localSuccess st)))
  \/ (join_ok x = true /\
      exists newCount,
        js_add (count st) (JNum (Int 1)) = Return newCount /\
        mutate x email st
        = (Return tt,
           mkState (<[LOCAL_STORAGE_KEY :=
                       JSON_stringify
                         (cache_record newCount (clock st + Z.of_N (latency x)))]>
                      (localStorage st))
                   (clock st + Z.of_N (latency x))
                   (trace st ++ [join_request email; Confetti;
                                 ToastSuccess "You're on the waitlist! 🎉"])
                   (JObj [("count", newCount)]) true (localSuccess st))).
Proof.
  destruct (join_ok x) eqn:Hok.
  - right. rewrite (mutate_accepted _ _ _ Hok).
    destruct (js_add (count st) (JNum (Int 1))) as [newCount|e].
    + right. split; [done|]. by exists newCount.
    + left. split; [done|]. by exists e.
  - left. split; [done|].
    destruct (joinWaitlist_fails x email st Hok) as [e He]. exists e.
    unfold mutate, try_catch. unfold mbind, M_bind. rewrite He.
    unfold onError, emit, logged. by destruct e.
Qed.

Lemma useEffect_body_trace st : trace (useEffect_body st).2 = trace st.
Proof.
  unfold useEffect_body. unfold_M. destruct (success st); simpl; [done|].
  by case_match.
Qed.

(** X2. Whatever comes of it, a submission makes one request and only one,
    the POST of the join, and makes it before anything else; the count is
    never asked for again. *)
Theorem submit_makes_one_request st x email :
  exists log,
    trace (submit x email st) = trace st ++ join_request email :: log /\
    network_calls log = 0%nat.
Proof.
  assert (H : exists log,
             trace (mutate x email st).2 = trace st ++ join_request email :: log /\
             network_calls log = 0%nat).
  { destruct (mutate_cases x email st)
      as [(_ & e & ->)|[(_ & e & _ & ->)|(_ & c & _ & ->)]].
    - exists [ToastError (message_of e)]. split; [|done].
      simpl. by rewrite <- app_assoc.
    - by exists [ToastError (message_of e)].
    - by exists [Confetti; ToastSuccess "You're on the waitlist! 🎉"]. }
  unfold submit. case_match; [done|]. by rewrite useEffect_body_trace.
Qed.

(** X3. When the network fails under a submission, the toast shows the text
    of the browser's rejection. *)
Theorem network_failure_notification st x email reason :
  reply x = NetworkDown reason ->
  trace (submit x email st)
  = trace st ++ [join_request email; ToastError (Literal reason)].
Proof.
  intros Hr.
  assert (Hj : joinWaitlist x email st
               = (Throw (NetworkFailure reason), posted x email st)).
  { rewrite <- joinWaitlist_state. unfold joinWaitlist, fetch. unfold_M.
    by rewrite Hr. }
  rewrite (submit_failed _ _ _ _ Hj). simpl. by rewrite <- app_assoc.
Qed.


(** X5. After a non-2xx answer whose body is the JSON value [null], reading
    [errorData.error] throws, and the toast shows the text of that
    [TypeError] instead of the generic message; nothing else changes. *)
Theorem null_body_notification st x email status body :
  reply x = Response status body -> ok status = false ->
  JSON_parse body = Some JNull ->
  trace (submit x email st)
  = trace st ++ [join_request email; ToastError (EngineText TypeError)] /\
  localStorage (submit x email st) = localStorage st /\
  count (submit x email st) = count st.
Proof.
  intros Hr Hok Hp.
  assert (Hj : joinWaitlist x email st = (Throw TypeError, posted x email st)).
  { rewrite <- joinWaitlist_state. unfold joinWaitlist, fetch. unfold_M.
    rewrite Hr. simpl. rewrite Hok. simpl. by rewrite Hp. }
  rewrite (submit_failed _ _ _ _ Hj). simpl. by rewrite <- app_assoc.
Qed.

(** X6. Of a 2xx answer to the join nothing is read: neither which 2xx
    status it is nor what the body holds makes any difference to what the
    submission does. *)
Theorem join_response_ignored st email lat status1 body1 status2 body2 :
  ok status1 = true -> ok status2 = true ->
  submit (mkExchange lat (Response status1 body1)) email st
  = submit (mkExchange lat (Response status2 body2)) email st.
Proof.
  intros H1 H2. unfold submit.
  rewrite (mutate_accepted (mkExchange lat (Response status1 body1))) by exact H1.
  rewrite (mutate_accepted (mkExchange lat (Response status2 body2))) by exact H2.
  reflexivity.
Qed.

(** X7. A join that goes through while the form is up replaces the form by
    the welcome message at once and stores the flag, also when the count on
    display is nothing [+ 1] can be applied to and [onSuccess] stops short
    with an error toast. *)
Theorem accepted_join_shows_welcome st x email :
  join_ok x = true ->
  success st = false ->
  (WaitlistForm (submit x email st)).1 = WelcomeMessage /\
  flag_set (localStorage (submit x email st)).
Proof.
  intros Hok Hs. unfold submit.
  destruct (mutate_cases x email st)
    as [(Hno & _)|[(_ & e & _ & He)|(_ & c & _ & He)]]; [congruence|..].
  - rewrite He. cbn [snd success]. rewrite Hs. cbn [Bool.eqb].
    unfold useEffect_body, WaitlistForm, flag_set. unfold_M. cbn.
    by rewrite lookup_insert_eq.
  - rewrite He. cbn [snd success]. rewrite Hs. cbn [Bool.eqb].
    unfold useEffect_body, WaitlistForm, flag_set. unfold_M. cbn.
    split; [done|]. by rewrite lookup_insert_eq.
Qed.

(** ** More about the count query *)

(** X8. One run of [queryFn] never makes more than one request, and the one
    it may make is [GET /api/waitlist/count]: either it returns a value and
    leaves the page exactly as it found it, or it ends on that request,
    having at most written log lines before. *)
Theorem queryFn_at_most_one_request st x :
  (exists hit, queryFn x st = (Return hit, st)) \/
  (exists log,
     trace (queryFn x st).2
     = trace st ++ log ++ [Fetched "GET" "/api/waitlist/count" None] /\
     network_calls log = 0%nat).
Proof.
  destruct (queryFn_cases st x) as [Hhit|(log & Hlog & ->)]; [by left|].
  right. exists log. split; [|done]. rewrite refetch_trace. simpl.
  by rewrite app_assoc.
Qed.

Lemma refetch_throw_storage x st e :
  (refetch x st).1 = Throw e -> localStorage (refetch x st).2 = localStorage st.
Proof.
  unfold refetch, getWaitlistCount, fetch. unfold_M.
  destruct (reply x) as [reason|status body]; simpl; [done|].
  destruct (ok status); simpl; [|done].
  destruct (JSON_parse body) as [data|]; simpl; [|done].
  by destruct (Get data "count").
Qed.

(** X9. Whenever [queryFn] throws, for whatever reason (the network, a
    non-2xx status, a 2xx body that is no JSON, a body that is [null]),
    nothing has been written: the stored data is what it was, and so are
    [query.data] and the count on display after [useQuery] has taken note
    of the failure. *)
Theorem queryFn_throw_writes_nothing st x e :
  (queryFn x st).1 = Throw e ->
  localStorage (queryFn x st).2 = localStorage st /\
  localStorage (getCount x st).2 = localStorage st /\
  query_data (getCount x st).2 = query_data st /\
  count (getCount x st).2 = count st.
Proof.
  intros He.
  assert (Hs : localStorage (queryFn x st).2 = localStorage st).
  { destruct (queryFn_cases st x) as [[hit Hq]|(log & _ & Hq)];
      rewrite Hq in *; [done|].
    by rewrite (refetch_throw_storage _ _ _ He). }
  split; [done|].
  assert (Hg : (getCount x st).2 = (queryFn x st).2).
  { unfold getCount, try_catch. unfold mbind, M_bind.
    destruct (queryFn x st) as [[r|e'] st1]; simpl in *; [done|done]. }
  split; [by rewrite Hg|].
  unfold count. by rewrite (getCount_failed _ _ _ He).
Qed.

Lemma getCount_refetched x st log status body data c :
  queryFn x st = refetch x (logged st log) ->
  reply x = Response status body -> ok status = true ->
  JSON_parse body = Some data -> Get data "count" = Return c ->
  (getCount x st).2
  = mkState (<[LOCAL_STORAGE_KEY :=
                JSON_stringify (cache_record c (clock st + Z.of_N (latency x)))]>
               (localStorage st))
            (clock st + Z.of_N (latency x))
            (trace st ++ log ++ [Fetched "GET" "/api/waitlist/count" None])
            data (success st) (localSuccess st).
Proof.
  intros Hq Hr Hok Hp Hc. unfold getCount, try_catch. unfold mbind, M_bind.
  rewrite Hq, (refetch_success _ _ _ _ _ _ Hr Hok Hp Hc).
  unfold setQueryData. simpl. by rewrite app_assoc.
Qed.

Lemma served_from_record st x n t :
  localStorage st !! LOCAL_STORAGE_KEY
  = Some (JSON_stringify (cache_record (JNum (Int n)) t)) ->
  clock st - t <= CACHE_DURATION ->
  queryFn x st = (Return (JObj [("count", JNum (Int n))]), st).
Proof.
  intros Hs Hage.
  pose proof (cache_record_roundtrip n t) as Hp.
  unfold queryFn. unfold mbind at 1, M_bind at 1, getItem. rewrite Hs.
  destruct (JSON_stringify (cache_record (JNum (Int n)) t)) as [|c r] eqn:E;
    [by rewrite JSON_parse_empty in Hp|].
  unfold mbind, M_bind, try_catch.
  rewrite (read_cache_number st _ _ t Hp eq_refl).
  destruct (Z.ltb_spec CACHE_DURATION (clock st - t)); [lia|done].
Qed.

(** X10. The cache round trip.  When the stored entry cannot be served and
    the server answers with an integer count [n], of a magnitude up to which
    the doubles of the code are the integers, the page shows [n], and from
    then on any page over the same storage, a reloaded one included, is
    served [n] without a request for as long as no more than the cache
    duration has passed since the answer came. *)
Theorem fetched_count_is_served_later st x status body data n :
  stale st ->
  reply x = Response status body -> ok status = true ->
  JSON_parse body = Some data ->
  Get data "count" = Return (JNum (Int n)) ->
  - MAX_SAFE_INTEGER <= n <= MAX_SAFE_INTEGER ->
  count (getCount x st).2 = JNum (Int n) /\
  forall later y,
    localStorage later = localStorage (getCount x st).2 ->
    clock later - clock (getCount x st).2 <= CACHE_DURATION ->
    queryFn y later = (Return (JObj [("count", JNum (Int n))]), later).
Proof.
  intros Hst Hr Hok Hp Hc _.
  destruct (stale_falls_through st x Hst) as (log & _ & Hq).
  rewrite (getCount_refetched _ _ _ _ _ _ _ Hq Hr Hok Hp Hc).
  destruct (Get_number_is_member _ _ _ Hc) as (m & -> & Hm).
  split.
  - unfold count, count_of. simpl. by rewrite Hm.
  - intros later y Hl Hage. simpl in Hl, Hage.
    apply (served_from_record later y n (clock st + Z.of_N (latency x))); [|done].
    by rewrite Hl, lookup_insert_eq.
Qed.



(** X13. A stored text that parses to anything but [null] and has no
    [timestamp] member (an object without one, a number, a string, an
    array) is served as a hit, whatever the time: the value returned
    carries its [count] member, or [undefined] where it has none. *)
Theorem entry_without_timestamp_is_served st x s v :
  localStorage st !! LOCAL_STORAGE_KEY = Some s ->
  JSON_parse s = Some v ->
  v <> JNull ->
  GetOpt v "timestamp" = JUndefined ->
  queryFn x st = (Return (JObj [("count", GetOpt v "count")]), st).
Proof.
  intros Hs Hp Hnull Ht.
  assert (Hget : forall key, Get v key = Return (GetOpt v key)).
  { intros key. destruct v; try done. by destruct (JSON_parse_defined s). }
  unfold queryFn. unfold mbind at 1, M_bind at 1, getItem. rewrite Hs.
  destruct s as [|c r]; [by rewrite JSON_parse_empty in Hp|].
  unfold read_cache. unfold_M. rewrite Hp, !Hget, Ht. reflexivity.
Qed.

(** ** What the page does to the storage, and how often it celebrates *)

(** X14. The footprint in [localStorage].  No sequence of loads, count
    queries and submissions changes what is stored under any key other than
    [waitlist_count] and [waitlist_success], and none removes an entry:
    what is there under a key stays there, if with another value. *)
Theorem storage_footprint st ops k :
  (k <> LOCAL_STORAGE_KEY -> k <> SUCCESS_KEY ->
   localStorage (run ops st) !! k = localStorage st !! k) /\
  (is_Some (localStorage st !! k) -> is_Some (localStorage (run ops st) !! k)).
Proof.
  split.
  - intros H1 H2.
    apply (preserves_run (fun m _ => m !! k = localStorage st !! k)); [..|done].
    + intros m _ v H. by rewrite lookup_insert_ne.
    + intros m _ H. by rewrite lookup_insert_ne.
    + done.
    + intros st0 H. by rewrite load_storage.
  - apply (preserves_run (fun m _ => is_Some (m !! k))).
    + intros m _ v H. rewrite lookup_insert. by case_decide.
    + intros m _ H. rewrite lookup_insert. by case_decide.
    + done.
    + intros st0 H. by rewrite load_storage.
Qed.

Lemma celebrations_app t u :
  celebrations (t ++ u) = (celebrations t + celebrations u)%nat.
Proof. unfold celebrations. by rewrite List.filter_app, length_app. Qed.

Lemma refetch_frame x st :
  success (refetch x st).2 = success st /\
  localSuccess (refetch x st).2 = localSuccess st /\
  localStorage (refetch x st).2 !! SUCCESS_KEY = localStorage st !! SUCCESS_KEY.
Proof.
  unfold refetch, getWaitlistCount, fetch. unfold_M.
  destruct (reply x) as [reason|status body]; simpl; [done|].
  destruct (ok status); simpl; [|done].
  destruct (JSON_parse body) as [data|]; simpl; [|done].
  destruct (Get data "count"); simpl; [|done].
  by rewrite lookup_insert_ne.
Qed.

Lemma queryFn_cases_quiet st x :
  (exists hit, queryFn x st = (Return hit, st)) \/
  (exists log, celebrations log = 0%nat /\
               queryFn x st = refetch x (logged st log)).
Proof.
  remember (queryFn x st) as q eqn:Hq.
  unfold queryFn in Hq. unfold mbind at 1, M_bind at 1, getItem in Hq.
  destruct (localStorage st !! LOCAL_STORAGE_KEY) as [[|c r]|].
  1,3: right; exists []; rewrite logged_nil; split; [reflexivity|exact Hq].
  unfold mbind at 1, M_bind at 1 in Hq. unfold try_catch in Hq.
  pose proof (read_cache_pure (String c r) st) as Hpure.
  destruct (read_cache (String c r) st) as [[[hit|]|e] st1]; simpl in Hpure; subst st1.
  - left. by exists hit.
  - right. exists []. rewrite logged_nil. split; [reflexivity|exact Hq].
  - right. exists [ConsoleError "Error parsing waitlist cache:" e].
    split; [reflexivity|exact Hq].
Qed.

(** What a count query leaves alone. *)
Lemma getCount_frame x st :
  success (getCount x st).2 = success st /\
  localSuccess (getCount x st).2 = localSuccess st /\
  localStorage (getCount x st).2 !! SUCCESS_KEY = localStorage st !! SUCCESS_KEY /\
  celebrations (trace (getCount x st).2) = celebrations (trace st).
Proof.
  assert (Hg : forall q : Outcome JsVal * State,
             queryFn x st = q ->
             success (getCount x st).2 = success q.2 /\
             localSuccess (getCount x st).2 = localSuccess q.2 /\
             localStorage (getCount x st).2 = localStorage q.2 /\
             trace (getCount x st).2 = trace q.2).
  { intros q Hq. unfold getCount, try_catch. unfold mbind, M_bind. rewrite Hq.
    by destruct q as [[r|e] st1]. }
  destruct (queryFn_cases_quiet st x) as [[hit Hq]|(log & Hlog & Hq)];
    destruct (Hg _ Hq) as (H1 & H2 & H3 & H4); rewrite H1, H2, H3, H4; clear Hg.
  - done.
  - destruct (refetch_frame x (logged st log)) as (F1 & F2 & F3).
    rewrite F1, F2, F3, refetch_trace. simpl. repeat split.
    rewrite !celebrations_app, Hlog.
    change (celebrations [Fetched "GET" "/api/waitlist/count" None]) with 0%nat.
    lia.
Qed.

Lemma load_facts st :
  trace (load st) = trace st /\
  success (load st) = false /\
  (localSuccess (load st) = true <-> flag_set (localStorage st)).
Proof.
  unfold load, useEffect_body, flag_set. unfold_M. cbn.
  case_match; cbn; repeat split; try done.
Qed.

Lemma settled_load st : settled (load st).
Proof.
  destruct (load_facts st) as (_ & Hs & Hl). split.
  - by rewrite Hs.
  - by rewrite load_storage.
Qed.

Lemma bool_iff_eq (a b : bool) : (a = true <-> b = true) -> a = b.
Proof. destruct a, b; intuition congruence. Qed.

Ltac count_confetti :=
  repeat match goal with
         | |- context [celebrations (?e :: ?l)] =>
             let r := eval cbv in (celebrations (e :: l)) in
             change (celebrations (e :: l)) with r
         end.

(** One step of a settled page: it stays settled, never loses a celebration
    and never exceeds its budget. *)
Lemma ui_op_step st o :
  settled st ->
  settled (ui_op st o) /\
  (celebrations (trace st) <= celebrations (trace (ui_op st o)))%nat /\
  (budget (ui_op st o) <= budget st)%nat.
Proof.
  intros [HA HC]. destruct o as [|x|x email]; unfold ui_op; cbn [WaitlistForm fst].
  - assert (run_op st Load = load st) as Hrun by reflexivity.
    assert (Hgoal : settled (load st) /\
                    (celebrations (trace st) <= celebrations (trace (load st)))%nat /\
                    (budget (load st) <= budget st)%nat).
    { destruct (load_facts st) as (Ht & _ & Hl).
      split; [apply settled_load|]. unfold budget. rewrite Ht.
      assert (localSuccess (load st) = localSuccess st) as ->
        by (apply bool_iff_eq; tauto).
      lia. }
    by destruct (localSuccess st).
  - assert (Hgoal : settled (getCount x st).2 /\
                    (celebrations (trace st)
                     <= celebrations (trace (getCount x st).2))%nat /\
                    (budget (getCount x st).2 <= budget st)%nat).
    { destruct (getCount_frame x st) as (H1 & H2 & H3 & H4).
      unfold settled, budget, flag_set in *. rewrite H1, H2, H3, H4.
      repeat split; try tauto; lia. }
    by destruct (localSuccess st).
  - destruct (localSuccess st) eqn:Hl.
    { unfold budget. rewrite Hl. repeat split; try tauto; lia. }
    assert (Hs : success st = false).
    { destruct (success st); [|done]. by specialize (HA eq_refl). }
    cbn [run_op]. unfold submit.
    destruct (mutate_cases x email st)
      as [(_ & e & ->)|[(_ & e & _ & ->)|(_ & c & _ & ->)]]; cbn [snd success].
    + unfold logged, posted. cbn [success]. rewrite Bool.eqb_reflx.
      unfold settled, budget, flag_set in *.
      cbn [trace localStorage success localSuccess]. rewrite Hl.
      rewrite !celebrations_app. count_confetti. repeat split; try tauto; lia.
    + rewrite Hs. cbn [Bool.eqb]. unfold useEffect_body. unfold_M.
      unfold settled, budget, flag_set.
      cbn [trace localStorage success localSuccess snd].
      rewrite lookup_insert_eq, !celebrations_app, Hl. count_confetti.
      repeat split; try done; lia.
    + rewrite Hs. cbn [Bool.eqb]. unfold useEffect_body. unfold_M.
      unfold settled, budget, flag_set.
      cbn [trace localStorage success localSuccess snd].
      rewrite lookup_insert_eq, !celebrations_app, Hl. count_confetti.
      repeat split; try done; lia.
Qed.

Lemma ui_run_steps ops : forall st,
  settled st ->
  (celebrations (trace st) <= celebrations (trace (ui_run ops st)))%nat /\
  (budget (ui_run ops st) <= budget st)%nat.
Proof.
  induction ops as [|o ops IH]; intros st Hst; [by split|].
  destruct (ui_op_step st o Hst) as (Hs & Hc & Hb).
  destruct (IH _ Hs) as (Hc' & Hb').
  change (ui_run (o :: ops) st) with (ui_run ops (ui_op st o)).
  split; lia.
Qed.

(** X15. One celebration per browser.  However a user goes about it
    (reloading, letting the count query run, submitting whenever the form
    is up), the confetti goes off at most once after the page has been
    opened, and not at all if the success flag was already stored. *)
Theorem confetti_at_most_once st ops :
  (celebrations (trace (ui_run ops (load st))) <= S (celebrations (trace st)))%nat /\
  (flag_set (localStorage st) ->
   celebrations (trace (ui_run ops (load st))) = celebrations (trace st)).
Proof.
  destruct (ui_run_steps ops (load st) (settled_load st)) as (Hc & Hb).
  destruct (load_facts st) as (Ht & _ & Hl).
  unfold budget in Hb. rewrite Ht in Hb, Hc. split.
  - destruct (localSuccess (ui_run ops (load st))), (localSuccess (load st)); lia.
  - intros Hf. apply Hl in Hf. rewrite Hf in Hb.
    destruct (localSuccess (ui_run ops (load st))); lia.
Qed.

(** ** The lint-staged configuration *)

Lemma split_word f : forall cur rest,
  has_space f = false ->
  split_words cur (f +:+ rest) = split_words (rev_app f cur) rest.
Proof.
  induction f as [|c f IH]; intros cur rest Hf; [reflexivity|].
  unfold has_space in Hf. cbn [list_ascii_of_string existsb] in Hf.
  apply orb_false_elim in Hf as [Hc Hf].
  change (String c f +:+ rest) with (String c (f +:+ rest)).
  cbn [split_words rev_app]. rewrite Hc. by apply IH.
Qed.

Lemma rev_app_nonempty s : forall c acc, rev_app s (String c acc) <> EmptyString.
Proof. induction s as [|d s IH]; intros c acc; simpl; [done|]. apply IH. Qed.

Lemma split_last_word f :
  f <> EmptyString -> has_space f = false -> split_words EmptyString f = [f].
Proof.
  intros Hne Hf. rewrite <- (append_empty_r f) at 1.
  rewrite split_word by done. cbn [split_words].
  destruct f as [|c f]; [done|].
  pose proof (rev_app_nonempty f c EmptyString) as Hr. cbn [rev_app].
  destruct (rev_app f (String c EmptyString)) as [|d r] eqn:E; [done|].
  rewrite <- E. change (rev_app f (String c EmptyString)) with (rev_string (String c f)).
  by rewrite rev_string_involutive.
Qed.

Lemma words_join filenames :
  Forall (fun f => f <> EmptyString /\ has_space f = false) filenames ->
  split_words EmptyString (join " " filenames) = filenames.
Proof.
  induction 1 as [|f rest [Hne Hf] Hrest IH]; [reflexivity|].
  destruct rest as [|g rest]; [by apply split_last_word|].
  change (join " " (f :: g :: rest)) with (f +:+ String " " (join " " (g :: rest))).
  rewrite split_word by done. cbn [split_words Ascii.eqb Bool.eqb].
  destruct f as [|c f]; [done|].
  pose proof (rev_app_nonempty f c EmptyString) as Hr. cbn [rev_app].
  destruct (rev_app f (String c EmptyString)) as [|d r] eqn:E; [done|].
  rewrite <- E. change (rev_app f (String c EmptyString)) with (rev_string (String c f)).
  by rewrite rev_string_involutive, IH.
Qed.

(** X16. For staged files whose names are non-empty and free of spaces, the
    command lines the configuration yields hand every file to the tool as a
    word of its own, in order: [*.js] files go to [eslint --fix] and then
    to [prettier --write], [*.md] and [*.json] files to [prettier --write]
    alone. *)
Theorem lintstaged_passes_each_file filenames :
  Forall (fun f => f <> EmptyString /\ has_space f = false) filenames ->
  map words (commands_for "*.js" filenames)
  = [ "eslint" :: "--fix" :: filenames; "prettier" :: "--write" :: filenames ] /\
  map words (commands_for "*.{md,json}" filenames)
  = [ "prettier" :: "--write" :: filenames ].
Proof.
  intros H. pose proof (words_join filenames H) as Hw.
  unfold commands_for, words. cbn [lintstagedrc List.find String.eqb Ascii.eqb Bool.eqb fst snd map].
  cbn -[join]. by rewrite Hw.
Qed.

(** ** These properties at work *)

Lemma network_failure_notification_witness :
  trace (submit offline "a@b.com" fresh_page)
  = trace fresh_page ++ [join_request "a@b.com"; ToastError (Literal "Failed to fetch")].
Proof.
  apply (network_failure_notification fresh_page offline "a@b.com" "Failed to fetch").
  reflexivity.
Defined.


Lemma null_body_notification_witness :
  trace (submit (rejected "null") "a@b.com" fresh_page)
  = trace fresh_page ++ [join_request "a@b.com"; ToastError (EngineText TypeError)] /\
  localStorage (submit (rejected "null") "a@b.com" fresh_page)
  = localStorage fresh_page /\
  count (submit (rejected "null") "a@b.com" fresh_page) = count fresh_page.
Proof.
  apply (null_body_notification fresh_page (rejected "null") "a@b.com" 400 "null").
  - reflexivity.
  - reflexivity.
  - vm_compute; reflexivity.
Defined.

Lemma join_response_ignored_witness :
  submit (mkExchange 5 (Response 200 EmptyString)) "a@b.com" fresh_page
  = submit (mkExchange 5 (Response 204 "<html>")) "a@b.com" fresh_page.
Proof.
  apply (join_response_ignored fresh_page "a@b.com" 5 200 EmptyString 204 "<html>");
    reflexivity.
Defined.

Lemma accepted_join_shows_welcome_witness :
  (WaitlistForm fresh_page).1 = JoinForm /\
  (WaitlistForm (submit joined "a@b.com" fresh_page)).1 = WelcomeMessage /\
  flag_set (localStorage (submit joined "a@b.com" fresh_page)).
Proof.
  split; [reflexivity|].
  apply (accepted_join_shows_welcome fresh_page joined "a@b.com"); reflexivity.
Defined.

(** A 2xx answer that is no JSON: [queryFn] throws and nothing is written. *)
Lemma queryFn_throw_writes_nothing_witness :
  (queryFn (mkExchange 5 (Response 200 "<html>")) (cached_page 42 1000 9000000)).1
  = Throw SyntaxError /\
  localStorage (queryFn (mkExchange 5 (Response 200 "<html>"))
                        (cached_page 42 1000 9000000)).2
  = localStorage (cached_page 42 1000 9000000) /\
  count (getCount (mkExchange 5 (Response 200 "<html>"))
                  (cached_page 42 1000 9000000)).2
  = count (cached_page 42 1000 9000000).
Proof.
  assert (H : (queryFn (mkExchange 5 (Response 200 "<html>"))
                       (cached_page 42 1000 9000000)).1 = Throw SyntaxError)
    by (vm_compute; reflexivity).
  split; [exact H|].
  destruct (queryFn_throw_writes_nothing _ _ _ H) as (H1 & _ & _ & H4).
  split; assumption.
Defined.

Lemma fetched_count_is_served_later_witness :
  count (getCount (count_reply 42) fresh_page).2 = JNum (Int 42) /\
  queryFn offline (load (getCount (count_reply 42) fresh_page).2)
  = (Return (JObj [("count", JNum (Int 42))]),
     load (getCount (count_reply 42) fresh_page).2).
Proof.
  destruct (fetched_count_is_served_later fresh_page (count_reply 42) 200
              (JSON_stringify (JObj [("count", JNum (Int 42))]))
              (JObj [("count", JNum (Int 42))]) 42) as (H1 & H2).
  - apply stale_absent. vm_compute; reflexivity.
  - reflexivity.
  - reflexivity.
  - vm_compute; reflexivity.
  - reflexivity.
  - vm_compute. split; discriminate.
  - split; [exact H1|]. apply H2.
    + vm_compute; reflexivity.
    + vm_compute; discriminate.
Defined.



(** The stored text is [7]: it is served, with an undefined count. *)
Lemma entry_without_timestamp_is_served_witness :
  queryFn (count_reply 42)
          (mkState {[ LOCAL_STORAGE_KEY := "7" ]} 1000 [] JUndefined false false)
  = (Return (JObj [("count", JUndefined)]),
     mkState {[ LOCAL_STORAGE_KEY := "7" ]} 1000 [] JUndefined false false).
Proof.
  apply (entry_without_timestamp_is_served
           (mkState {[ LOCAL_STORAGE_KEY := "7" ]} 1000 [] JUndefined false false)
           (count_reply 42) "7" (JNum (Int 7))).
  - vm_compute; reflexivity.
  - vm_compute; reflexivity.
  - discriminate.
  - reflexivity.
Defined.

Lemma storage_footprint_witness :
  localStorage
    (run [GetCount (count_reply 42); Submit joined "a@b.com"; Load]
         (mkState {[ "theme" := "dark" ]} 1000 [] JUndefined false false))
  !! "theme" = Some "dark".
Proof.
  destruct (storage_footprint
              (mkState {[ "theme" := "dark" ]} 1000 [] JUndefined false false)
              [GetCount (count_reply 42); Submit joined "a@b.com"; Load] "theme")
    as [H _].
  rewrite H; [vm_compute; reflexivity | discriminate | discriminate].
Defined.

(** Two submissions with a reload in between: the second finds no form. *)
Lemma confetti_at_most_once_witness :
  (celebrations
     (trace (ui_run [Submit joined "a@b.com"; Load; Submit joined "c@d.com";
                     GetCount offline]
                    (load fresh_page)))
   <= S (celebrations (trace fresh_page)))%nat /\
  celebrations
    (trace (ui_run [Submit joined "c@d.com"; Load; Submit joined "e@f.com"]
                   (load (submit joined "a@b.com" fresh_page))))
  = celebrations (trace (submit joined "a@b.com" fresh_page)).
Proof.
  split.
  - apply (confetti_at_most_once fresh_page).
  - apply (confetti_at_most_once (submit joined "a@b.com" fresh_page)).
    vm_compute; reflexivity.
Defined.

Lemma lintstaged_passes_each_file_witness :
  map words (commands_for "*.js" ["a.js"; "src/b.js"])
  = [ ["eslint"; "--fix"; "a.js"; "src/b.js"];
      ["prettier"; "--write"; "a.js"; "src/b.js"] ] /\
  map words (commands_for "*.{md,json}" ["a.js"; "src/b.js"])
  = [ ["prettier"; "--write"; "a.js"; "src/b.js"] ].
Proof.
  apply (lintstaged_passes_each_file ["a.js"; "src/b.js"]).
  repeat constructor; discriminate.
Defined.
